(** * ytmusicapi.auth.oauth: the OAuth device flow of YTMusicOAuth

    A shallow embedding of [src/ytmusicapi/auth/oauth.py] and the
    properties of its token life cycle: token parsing, refresh before
    use in [load_headers], persistence in [dump_token], the interactive
    [setup], and the two header classifiers [is_oauth] and
    [is_custom_oauth].

    Conventions of the embedding.
    - A Python [str] is a [string]; one character of the model stands
      for one character of the Python string (ASCII text), so [len] is
      [String.length] and [str.lower] folds the letters A..Z.
    - A Python [int] is a [Z].  A finite [float] is the rational it
      denotes; the operations whose result depends on binary64 rounding
      or on the textual form of a float are taken from [Builtins].
    - A [dict] with string keys is a [gmap string _]; the order of the
      keys is not observed by any function of this module.
    - An exception is a class name with its argument. *)

From Stdlib Require Import QArith Ascii String DecimalString.
From stdpp Require Import gmap strings list fin_maps pretty.

Set Default Proof Using "Type".
#[local] Set Warnings "-register-all".

(** ** Python values *)

(** What [json.loads] / [response.json()] produces, and what a token
    dict holds. *)
Inductive json : Type :=
  | JNull
  | JBool (b : bool)
  | JInt (n : Z)
  | JFloat (q : Q)
  | JStr (s : string)
  | JArr (l : list json)
  | JObj (m : gmap string json).

Record exn : Type := Exn { exn_class : string; exn_arg : string }.

Definition KeyError (key : string) : exn := Exn "KeyError" key.
Definition TypeError (msg : string) : exn := Exn "TypeError" msg.
Definition ValueError (msg : string) : exn := Exn "ValueError" msg.
Definition AttributeError (msg : string) : exn := Exn "AttributeError" msg.

(** The outcome of an expression that may raise. *)
Definition result (A : Type) : Type := exn + A.

Definition type_name (v : json) : string :=
  match v with
  | JNull => "NoneType"
  | JBool _ => "bool"
  | JInt _ => "int"
  | JFloat _ => "float"
  | JStr _ => "str"
  | JArr _ => "list"
  | JObj _ => "dict"
  end.

(** The parts of the interpreter's builtins that are used on values this
    module does not construct itself: [int] of a string, binary64
    rounding of an exact result, and [repr] of floats and containers. *)
Class Builtins : Type := {
  int_of_str : string → option Z;
  round64 : Q → Q;
  repr_other : json → string;
}.

(** [int(x)] of a float: truncation towards zero. *)
Definition int_of_float (q : Q) : Z := Z.quot (Qnum q) (Z.pos (Qden q)).

Section builtins.
Context {B : Builtins}.

(** [int(v)] *)
Definition py_int (v : json) : result Z :=
  match v with
  | JInt n => inr n
  | JBool b => inr (Z.b2z b)
  | JFloat q => inr (int_of_float q)
  | JStr s =>
      match int_of_str s with
      | Some n => inr n
      | None => inl (ValueError ("invalid literal for int() with base 10: " +:+ s))
      end
  | _ => inl (TypeError ("int() argument must be a string, a bytes-like object or a real number, not '"
                          +:+ type_name v +:+ "'"))
  end.

(** [v - k] for an int literal [k]; the result is an int or a float. *)
Definition py_sub (v : json) (k : Z) : result (Z + Q) :=
  match v with
  | JInt n => inr (inl (n - k)%Z)
  | JBool b => inr (inl (Z.b2z b - k)%Z)
  | JFloat q => inr (inr (round64 (q - inject_Z k)))
  | _ => inl (TypeError ("unsupported operand type(s) for -: '" +:+ type_name v +:+ "' and 'int'"))
  end.

(** [format(v, "")], which is [str(v)] for every type here *)
Definition py_format (v : json) : string :=
  match v with
  | JStr s => s
  | JInt n => pretty n
  | JBool true => "True"
  | JBool false => "False"
  | JNull => "None"
  | _ => repr_other v
  end.
End builtins.

(** The number an int-or-float stands for. *)
Definition num_val (x : Z + Q) : Q :=
  match x with inl n => inject_Z n | inr q => q end.

(** [t > x] for a float [t]: Python compares a float with an int or a
    float exactly. *)
Definition py_gt (t : Q) (x : Z + Q) : bool := negb (Qle_bool t (num_val x)).

(** [d[key]] on a dict *)
Definition dict_getitem (d : gmap string json) (key : string) : result json :=
  match d !! key with
  | Some v => inr v
  | None => inl (KeyError key)
  end.

(** [v[key]] on a JSON value with a string key *)
Definition json_getitem (v : json) (key : string) : result json :=
  match v with
  | JObj d => dict_getitem d key
  | JArr _ => inl (TypeError "list indices must be integers or slices, not str")
  | JStr _ => inl (TypeError "string indices must be integers, not 'str'")
  | _ => inl (TypeError ("'" +:+ type_name v +:+ "' object is not subscriptable"))
  end.

(** ** Strings *)

Definition ascii_lower (c : ascii) : ascii :=
  let n := nat_of_ascii c in
  if Nat.leb 65 n && Nat.leb n 90 then ascii_of_nat (n + 32) else c.

(** [s.lower()] *)
Fixpoint lower (s : string) : string :=
  match s with
  | EmptyString => EmptyString
  | String c r => String (ascii_lower c) (lower r)
  end.

(** [s.startswith(p)] *)
Definition startswith (s p : string) : bool := String.prefix p s.

(** ** case_insensitive_dict.CaseInsensitiveDict

    The dict keeps [_data], keyed by the lower-cased key and holding the
    key as written together with the value; [in] is
    [Mapping.__contains__], which tries [__getitem__]. *)
Module CaseInsensitiveDict.
Abbreviation t := (gmap string (string * json)).

Definition _convert_key (key : string) : string := lower key.

Definition __setitem__ (key : string) (value : json) (d : t) : t :=
  <[_convert_key key := (key, value)]> d.

Definition __getitem__ (key : string) (d : t) : result json :=
  match d !! _convert_key key with
  | Some kv => inr (snd kv)
  | None => inl (KeyError (_convert_key key))
  end.

Definition __contains__ (key : string) (d : t) : bool :=
  match __getitem__ key d with
  | inr _ => true
  | inl _ => false
  end.

(** [CaseInsensitiveDict(data)]: every item of [data] is stored with
    [__setitem__], in the order of [data]. *)
Definition of_items (data : list (string * json)) : t :=
  fold_left (λ d kv, __setitem__ (fst kv) (snd kv) d) data ∅.
End CaseInsensitiveDict.

(** ** is_oauth, is_custom_oauth *)

Definition oauth_structure : list string :=
  ["access_token"; "expires_at"; "expires_in"; "token_type"; "refresh_token"].

Definition is_oauth (headers : CaseInsensitiveDict.t) : bool :=
  forallb (λ key, CaseInsensitiveDict.__contains__ key headers) oauth_structure.

Definition is_custom_oauth (headers : CaseInsensitiveDict.t) : result bool :=
  if CaseInsensitiveDict.__contains__ "authorization" headers then
    match CaseInsensitiveDict.__getitem__ "authorization" headers with
    | inl e => inl e
    | inr (JStr s) => inr (startswith s "Bearer ")
    | inr v => inl (AttributeError ("'" +:+ type_name v +:+ "' object has no attribute 'startswith'"))
    end
  else inr false.

(** ** Coroutine objects

    Calling an [async def] without [await] runs nothing and yields a
    coroutine object.  Two calls of this module are made that way:
    [code_response.json()] in [get_code] and
    [self.get_token_from_code(...)] in [setup]. *)

(** An [aiohttp.ClientResponse]: what awaiting its [json()] gives. *)
Record Response : Type := { response_json : result json }.

Inductive coroutine : Type :=
  | CoResponseJson (response : Response)
  | CoGetTokenFromCode (device_code : json).

Inductive pyval : Type :=
  | VJson (j : json)
  | VCoro (c : coroutine).

(** [v[key]] *)
Definition py_getitem (v : pyval) (key : string) : result json :=
  match v with
  | VJson j => json_getitem j key
  | VCoro _ => inl (TypeError "'coroutine' object is not subscriptable")
  end.

(** ** The world the client runs in *)

(** A request handed to [session.post]. *)
Record Request : Type := {
  req_url : string;
  req_data : gmap string json;
  req_headers : gmap string string;
}.

Inductive console_event : Type :=
  | BrowserOpen (url : string)
  | Input (prompt : string).

(** - [clock], [ticks]: the successive readings of [time.time()] and how
      many were taken;
    - [net], [sent]: what the session answers to its n-th [post], and
      the requests posted so far;
    - [heap]: the dict objects the caller holds, by reference;
    - [fs], [open_error]: the files (a file holds the JSON document
      dumped to it, or nothing when it was only truncated) and the paths
      that [open(path, "w")] refuses;
    - [stdin], [console]: what [input] returns or raises, and what was
      shown to the user. *)
Record World : Type := {
  clock : nat → Q;
  ticks : nat;
  net : nat → result Response;
  sent : list Request;
  heap : gmap nat (gmap string json);
  fs : gmap string (option json);
  open_error : string → option exn;
  stdin : result string;
  console : list console_event;
}.

Definition with_ticks (n : nat) (w : World) : World :=
  {| clock := clock w; ticks := n; net := net w; sent := sent w; heap := heap w;
     fs := fs w; open_error := open_error w; stdin := stdin w; console := console w |}.

Definition with_sent (s : list Request) (w : World) : World :=
  {| clock := clock w; ticks := ticks w; net := net w; sent := s; heap := heap w;
     fs := fs w; open_error := open_error w; stdin := stdin w; console := console w |}.

Definition with_heap (h : gmap nat (gmap string json)) (w : World) : World :=
  {| clock := clock w; ticks := ticks w; net := net w; sent := sent w; heap := h;
     fs := fs w; open_error := open_error w; stdin := stdin w; console := console w |}.

Definition with_fs (f : gmap string (option json)) (w : World) : World :=
  {| clock := clock w; ticks := ticks w; net := net w; sent := sent w; heap := heap w;
     fs := f; open_error := open_error w; stdin := stdin w; console := console w |}.

Definition with_console (c : list console_event) (w : World) : World :=
  {| clock := clock w; ticks := ticks w; net := net w; sent := sent w; heap := heap w;
     fs := fs w; open_error := open_error w; stdin := stdin w; console := c |}.

(** ** Computations: state and exceptions *)

Definition M (A : Type) : Type := World → result A * World.

Definition ret {A} (x : A) : M A := λ w, (inr x, w).

Definition raise {A} (e : exn) : M A := λ w, (inl e, w).

Definition bind {A B} (m : M A) (k : A → M B) : M B :=
  λ w, match m w with
       | (inr x, w') => k x w'
       | (inl e, w') => (inl e, w')
       end.

(** An expression that may raise, inside a computation. *)
Definition lift {A} (r : result A) : M A := λ w, (r, w).

Notation "'let!' x ':=' m 'in' k" := (bind m (λ x, k))
  (at level 10, x name, m at level 100, k at level 200).
Notation "'do!' m 'in' k" := (bind m (λ _, k))
  (at level 10, m at level 100, k at level 200).

(** [time.time()] *)
Definition time_time : M Q :=
  λ w, (inr (clock w (ticks w)), with_ticks (S (ticks w)) w).

(** [await session.post(url, data=data, headers=headers)] *)
Definition session_post (url : string) (data : gmap string json)
    (headers : gmap string string) : M Response :=
  λ w, (net w (length (sent w)),
        with_sent (sent w ++ [{| req_url := url; req_data := data; req_headers := headers |}]) w).

(** Reading the dict a reference points to.  A reference the caller
    holds always points to a dict; the error is for references that are
    not in the model's heap. *)
Definition deref (ref : nat) : M (gmap string json) :=
  λ w, match heap w !! ref with
       | Some d => (inr d, w)
       | None => (inl (Exn "ReferenceError" "no such object"), w)
       end.

(** [ref.update(new)]: the items of [new] replace or extend those of
    the dict behind [ref]. *)
Definition dict_update (ref : nat) (new : gmap string json) : M unit :=
  let! d := deref ref in
  λ w, (inr tt, with_heap (<[ref := new ∪ d]> (heap w)) w).

(** [open(filepath, encoding="utf8", mode="w")]: the file is created or
    truncated. *)
Definition open_w (filepath : string) : M unit :=
  λ w, match open_error w filepath with
       | Some e => (inl e, w)
       | None => (inr tt, with_fs (<[filepath := None]> (fs w)) w)
       end.

(** [json.dump(obj, file, indent=True)] on the file just opened: a
    coroutine object is not serialisable, and nothing is written
    before the encoder finds that out. *)
Definition json_dump (obj : pyval) (filepath : string) : M unit :=
  match obj with
  | VJson j => λ w, (inr tt, with_fs (<[filepath := Some j]> (fs w)) w)
  | VCoro _ => raise (TypeError "Object of type coroutine is not JSON serializable")
  end.

(** [webbrowser.open(url)] *)
Definition webbrowser_open (url : string) : M unit :=
  λ w, (inr tt, with_console (console w ++ [BrowserOpen url]) w).

(** [input(prompt)] *)
Definition input (prompt : string) : M string :=
  λ w, (stdin w, with_console (console w ++ [Input prompt]) w).

(** ** What the module imports *)

(** [ytmusicapi.constants] *)
Class Constants : Type := {
  OAUTH_CLIENT_ID : string;
  OAUTH_CLIENT_SECRET : string;
  OAUTH_CODE_URL : string;
  OAUTH_SCOPE : string;
  OAUTH_TOKEN_URL : string;
  OAUTH_USER_AGENT : string;
}.

(** The mapping [ytmusicapi.helpers.initialize_headers] returns: a
    plain dict or a case-insensitive one.  Reading a key gives what was
    last stored under it, and storing under a key leaves every key that
    differs from it beyond letter case alone. *)
Class HeaderMap (H : Type) : Type := {
  hm_get : string → H → option json;
  hm_set : string → json → H → H;
  hm_get_set_eq : ∀ k v h, hm_get k (hm_set k v h) = Some v;
  hm_get_set_ne : ∀ k k' v h, lower k ≠ lower k' → hm_get k' (hm_set k v h) = hm_get k' h;
}.

#[export] Program Instance dict_HeaderMap : HeaderMap (gmap string json) := {
  hm_get k h := h !! k;
  hm_set k v h := <[k := v]> h;
}.
Next Obligation. intros k v h. apply lookup_insert_eq. Qed.
Next Obligation. intros k k' v h Hne. apply lookup_insert_ne. congruence. Qed.

#[export] Program Instance CaseInsensitiveDict_HeaderMap : HeaderMap CaseInsensitiveDict.t := {
  hm_get k h := snd <$> h !! CaseInsensitiveDict._convert_key k;
  hm_set := CaseInsensitiveDict.__setitem__;
}.
Next Obligation.
  intros k v h. unfold CaseInsensitiveDict.__setitem__.
  by rewrite lookup_insert_eq.
Qed.
Next Obligation.
  intros k k' v h Hne. unfold CaseInsensitiveDict.__setitem__, CaseInsensitiveDict._convert_key.
  by rewrite lookup_insert_ne.
Qed.

(** ** class YTMusicOAuth *)

Section YTMusicOAuth.
Context {B : Builtins} {C : Constants} {Headers : Type} {HM : HeaderMap Headers}.

(** [ytmusicapi.helpers.initialize_headers()] *)
Variable initialize_headers : Headers.

Definition _send_request (url : string) (data : gmap string json) : M Response :=
  let data := <["client_id" := JStr OAUTH_CLIENT_ID]> data in
  let headers := {["User-Agent" := OAUTH_USER_AGENT]} in
  session_post url data headers.

(** [code_response.json()] is not awaited: what is returned is the
    coroutine object. *)
Definition get_code : M pyval :=
  let! code_response := _send_request OAUTH_CODE_URL {["scope" := JStr OAUTH_SCOPE]} in
  let response_json := VCoro (CoResponseJson code_response) in
  ret response_json.

Definition _parse_token (response : Response) : M (gmap string json) :=
  let! token := lift (response_json response) in
  let! now := time_time in
  let! expires_in := lift (json_getitem token "expires_in") in
  let! n := lift (py_int expires_in) in
  match token with
  | JObj d => ret (<["expires_at" := JInt (int_of_float now + n)]> d)
  | _ => raise (TypeError ("'" +:+ type_name token +:+ "' object does not support item assignment"))
  end.

Definition get_token_from_code (device_code : json) : M (gmap string json) :=
  let! response :=
    _send_request OAUTH_TOKEN_URL
      (<["client_secret" := JStr OAUTH_CLIENT_SECRET]>
         (<["grant_type" := JStr "http://oauth.net/grant_type/device/1.0"]>
            {["code" := device_code]})) in
  _parse_token response.

Definition refresh_token (refresh_token : json) : M (gmap string json) :=
  let! response :=
    _send_request OAUTH_TOKEN_URL
      (<["client_secret" := JStr OAUTH_CLIENT_SECRET]>
         (<["grant_type" := JStr "refresh_token"]>
            {["refresh_token" := refresh_token]})) in
  _parse_token response.

Definition dump_token (token : pyval) (filepath : option string) : M unit :=
  match filepath with
  | None => ret tt
  | Some path =>
      if String.eqb path "" || Nat.ltb 255 (String.length path) then ret tt
      else
        do! open_w path in
        json_dump token path
  end.

(** [self.get_token_from_code(...)] is not awaited either: [token] is a
    coroutine object and no request is made for it. *)
Definition setup (filepath : option string) (open_browser : bool) : M pyval :=
  let! code := get_code in
  let! verification_url := lift (py_getitem code "verification_url") in
  let! user_code := lift (py_getitem code "user_code") in
  let url := py_format verification_url +:+ "?user_code=" +:+ py_format user_code in
  do! (if open_browser then webbrowser_open url else ret tt) in
  do! input ("Go to " +:+ url +:+ ", finish the login flow and press Enter when done, Ctrl-C to abort") in
  let! device_code := lift (py_getitem code "device_code") in
  let token := VCoro (CoGetTokenFromCode device_code) in
  do! dump_token token filepath in
  ret token.

(** [token] is the caller's dict, by reference. *)
Definition load_headers (token : nat) (filepath : option string) : M Headers :=
  let headers := initialize_headers in
  let! now := time_time in
  let! tok := deref token in
  let! expires_at := lift (dict_getitem tok "expires_at") in
  let! threshold := lift (py_sub expires_at 3600) in
  do! (if py_gt now threshold then
         let! tok := deref token in
         let! rt := lift (dict_getitem tok "refresh_token") in
         let! new := refresh_token rt in
         do! dict_update token new in
         let! tok := deref token in
         dump_token (VJson (JObj tok)) filepath
       else ret tt) in
  let! tok := deref token in
  let! token_type := lift (dict_getitem tok "token_type") in
  let! access_token := lift (dict_getitem tok "access_token") in
  let headers := hm_set "Authorization" (JStr (py_format token_type +:+ " " +:+ py_format access_token)) headers in
  let headers := hm_set "Content-Type" (JStr "application/json") headers in
  let! now := time_time in
  let headers := hm_set "X-Goog-Request-Time" (JStr (pretty (int_of_float now))) headers in
  ret headers.

End YTMusicOAuth.

(** ** Observations on a world *)

(** A request made by [refresh_token]: a post to the token URL with the
    refresh grant. *)
Definition is_refresh_request {C : Constants} (r : Request) : bool :=
  String.eqb (req_url r) OAUTH_TOKEN_URL &&
  match req_data r !! "grant_type" with
  | Some (JStr g) => String.eqb g "refresh_token"
  | _ => false
  end.

(** How many times the provider was asked to refresh. *)
Definition refresh_calls {C : Constants} (w : World) : nat :=
  length (List.filter is_refresh_request (sent w)).

(** The headers [load_headers] hands out for a token type, an access
    token and the reading of the clock at the end, on top of [base]. *)
Definition request_headers {B : Builtins} {Headers : Type} {HM : HeaderMap Headers} (base : Headers)
    (token_type access_token : json) (now : Q) : Headers :=
  hm_set "X-Goog-Request-Time" (JStr (pretty (int_of_float now)))
    (hm_set "Content-Type" (JStr "application/json")
       (hm_set "Authorization" (JStr (py_format token_type +:+ " " +:+ py_format access_token)) base)).

(** The request [refresh_token] posts for a refresh token. *)
Definition refresh_request {C : Constants} (refresh_token : json) : Request := {|
  req_url := OAUTH_TOKEN_URL;
  req_data :=
    <["client_id" := JStr OAUTH_CLIENT_ID]>
      (<["client_secret" := JStr OAUTH_CLIENT_SECRET]>
         (<["grant_type" := JStr "refresh_token"]>
            {["refresh_token" := refresh_token]}));
  req_headers := {["User-Agent" := OAUTH_USER_AGENT]};
|}.

(** The request [get_token_from_code] posts for a device code. *)
Definition exchange_request {C : Constants} (device_code : json) : Request := {|
  req_url := OAUTH_TOKEN_URL;
  req_data :=
    <["client_id" := JStr OAUTH_CLIENT_ID]>
      (<["client_secret" := JStr OAUTH_CLIENT_SECRET]>
         (<["grant_type" := JStr "http://oauth.net/grant_type/device/1.0"]>
            {["code" := device_code]}));
  req_headers := {["User-Agent" := OAUTH_USER_AGENT]};
|}.

(** The request [get_code] posts. *)
Definition code_request {C : Constants} : Request := {|
  req_url := OAUTH_CODE_URL;
  req_data := <["client_id" := JStr OAUTH_CLIENT_ID]> {["scope" := JStr OAUTH_SCOPE]};
  req_headers := {["User-Agent" := OAUTH_USER_AGENT]};
|}.

(** [token] is the body of [response] stamped with an expiry: the
    reading [now] of the local clock, in whole seconds, plus the
    integer the body gives as expires_in. *)
Definition stamped {B : Builtins} (response : Response) (now : Q) (token : gmap string json) : Prop :=
  ∃ body expires_in n,
    response_json response = inr (JObj body)
    ∧ body !! "expires_in" = Some expires_in
    ∧ py_int expires_in = inr n
    ∧ token = <["expires_at" := JInt (int_of_float now + n)]> body.

(** What the last statements of [load_headers] do with the dict as it
    then is: the headers and one more reading of the clock, or the
    KeyError of a missing field. *)
Definition emit_headers {B : Builtins} {Headers : Type} {HM : HeaderMap Headers} (base : Headers)
    (record : gmap string json) (w : World) : result Headers * World :=
  match record !! "token_type" with
  | None => (inl (KeyError "token_type"), w)
  | Some token_type =>
      match record !! "access_token" with
      | None => (inl (KeyError "access_token"), w)
      | Some access_token =>
          (inr (request_headers base token_type access_token (clock w (ticks w))),
           with_ticks (S (ticks w)) w)
      end
  end.

(** ** A concrete setting to run the client in *)

(** Builtins for the runs below, whose tokens hold strings and ints
    only: [int] reads plain decimal literals, and no float is rounded
    or printed. *)
Definition example_builtins : Builtins := {|
  int_of_str s := Z.of_int <$> NilZero.int_of_string s;
  round64 q := q;
  repr_other _ := "";
|}.

Definition example_constants : Constants := {|
  OAUTH_CLIENT_ID := "client-id";
  OAUTH_CLIENT_SECRET := "client-secret";
  OAUTH_CODE_URL := "https://provider.example/device/code";
  OAUTH_SCOPE := "https://provider.example/auth/youtube";
  OAUTH_TOKEN_URL := "https://provider.example/token";
  OAUTH_USER_AGENT := "Mozilla/5.0 Cobalt/Version";
|}.

Definition example_base_headers : gmap string json :=
  {["user-agent" := JStr "Mozilla/5.0"]}.

(** A token record issued by the provider, with its expiry. *)
Definition example_token (expires_at : Z) : gmap string json :=
  <["access_token" := JStr "A1"]>
    (<["refresh_token" := JStr "R1"]>
       (<["token_type" := JStr "Bearer"]>
          (<["expires_in" := JInt 3600]>
             {["expires_at" := JInt expires_at]}))).

(** A world whose clock stands at [now], whose provider answers every
    post with [answer], and where the caller holds [token] at
    reference 0; every path can be opened and the user presses Enter. *)
Definition example_world (now : Q) (answer : result Response) (token : gmap string json) : World := {|
  clock _ := now;
  ticks := 0;
  net _ := answer;
  sent := [];
  heap := {[0%nat := token]};
  fs := ∅;
  open_error _ := None;
  stdin := inr "";
  console := [];
|}.

(** The same world on a file system that refuses every [open]. *)
Definition read_only (w : World) : World := {|
  clock := clock w;
  ticks := ticks w;
  net := net w;
  sent := sent w;
  heap := heap w;
  fs := fs w;
  open_error _ := Some (Exn "PermissionError" "Permission denied");
  stdin := stdin w;
  console := console w;
|}.

(** The provider's answer to a code exchange. *)
Definition example_exchange_body : gmap string json :=
  <["access_token" := JStr "A1"]>
    (<["expires_in" := JInt 3600]>
       (<["refresh_token" := JStr "R1"]>
          {["token_type" := JStr "Bearer"]})).

(** The provider's answer to a refresh that carries no refresh token. *)
Definition example_refresh_body : gmap string json :=
  <["access_token" := JStr "A2"]>
    (<["expires_in" := JInt 3600]>
       {["token_type" := JStr "Bearer"]}).

(** The provider's answer while the user has not yet approved. *)
Definition example_pending_body : gmap string json :=
  <["error" := JStr "authorization_pending"]>
    {["error_description" := JStr "Precondition Required"]}.

(** The provider's answer to the device-code request. *)
Definition example_code_body : gmap string json :=
  <["device_code" := JStr "D1"]>
    (<["user_code" := JStr "U1"]>
       {["verification_url" := JStr "https://example.com/device"]}).

Definition json_response (body : gmap string json) : result Response :=
  inr {| response_json := inr (JObj body) |}.

(** * Properties *)

(** ** CaseInsensitiveDict *)

Lemma of_items_snoc (data : list (string * json)) (k : string) (v : json) :
  CaseInsensitiveDict.of_items (data ++ [(k, v)])
  = CaseInsensitiveDict.__setitem__ k v (CaseInsensitiveDict.of_items data).
Proof. unfold CaseInsensitiveDict.of_items. by rewrite fold_left_app. Qed.

(** A lower-cased key is bound exactly when some item is written with
    that key up to letter case. *)
Lemma of_items_is_Some (data : list (string * json)) (c : string) :
  is_Some (CaseInsensitiveDict.of_items data !! c)
  ↔ ∃ k v, (k, v) ∈ data ∧ lower k = c.
Proof.
  induction data as [|[k0 v0] data IH] using rev_ind.
  - unfold CaseInsensitiveDict.of_items; simpl. rewrite lookup_empty. split.
    + intros [x Hx]. discriminate.
    + intros (k & v & Hin & _). by apply elem_of_nil in Hin.
  - rewrite of_items_snoc.
    unfold CaseInsensitiveDict.__setitem__, CaseInsensitiveDict._convert_key.
    destruct (decide (lower k0 = c)) as [Heq|Hne].
    + rewrite Heq, lookup_insert_eq. split; [|by eauto].
      intros _. exists k0, v0. split; [|done].
      apply elem_of_app. right. apply list_elem_of_singleton. done.
    + rewrite lookup_insert_ne by done. rewrite IH. split.
      * intros (k & v & Hin & Hk). exists k, v. split; [|done].
        apply elem_of_app. by left.
      * intros (k & v & Hin & Hk). exists k, v. split; [|done].
        apply elem_of_app in Hin as [Hin|Hin]; [done|].
        apply list_elem_of_singleton in Hin. congruence.
Qed.

(** The binding of a lower-cased key is the last item written with
    that key up to letter case. *)
Lemma of_items_lookup (data : list (string * json)) (c k : string) (v : json) :
  CaseInsensitiveDict.of_items data !! c = Some (k, v)
  ↔ ∃ before after, data = before ++ (k, v) :: after ∧ lower k = c
      ∧ ∀ k' v', (k', v') ∈ after → lower k' ≠ c.
Proof.
  induction data as [|[k0 v0] data IH] using rev_ind.
  - unfold CaseInsensitiveDict.of_items; simpl. rewrite lookup_empty. split; [done|].
    intros (before & after & Heq & _). by destruct before.
  - rewrite of_items_snoc.
    unfold CaseInsensitiveDict.__setitem__, CaseInsensitiveDict._convert_key.
    destruct (decide (lower k0 = c)) as [Hc|Hne].
    + rewrite Hc, lookup_insert_eq. split.
      * intros [= <- <-]. exists data, []. split; [done|]. split; [done|].
        intros k' v' Hin. by apply elem_of_nil in Hin.
      * intros (before & after & Heq & Hk & Hafter).
        destruct after as [|[k1 v1] after _] using rev_ind.
        -- apply app_inj_tail in Heq as [_ Heq]. by rewrite Heq.
        -- exfalso.
           change (data ++ [(k0, v0)] = before ++ ((k, v) :: after) ++ [(k1, v1)]) in Heq.
           rewrite app_assoc in Heq.
           apply app_inj_tail in Heq as [_ [= <- <-]].
           apply (Hafter k0 v0); [|done].
           apply elem_of_app. right. by apply list_elem_of_singleton.
    + rewrite lookup_insert_ne by done. rewrite IH. split.
      * intros (before & after & -> & Hk & Hafter).
        exists before, (after ++ [(k0, v0)]). split; [by rewrite <- app_assoc|].
        split; [done|]. intros k' v' Hin.
        apply elem_of_app in Hin as [Hin|Hin]; [by eapply Hafter|].
        apply list_elem_of_singleton in Hin. congruence.
      * intros (before & after & Heq & Hk & Hafter).
        destruct after as [|[k1 v1] after _] using rev_ind.
        -- apply app_inj_tail in Heq as [_ [= <- <-]]. done.
        -- change (data ++ [(k0, v0)] = before ++ ((k, v) :: after) ++ [(k1, v1)]) in Heq.
           rewrite app_assoc in Heq.
           apply app_inj_tail in Heq as [-> _].
           exists before, after. split; [done|]. split; [done|].
           intros k' v' Hin. apply (Hafter k' v').
           apply elem_of_app. by left.
Qed.

Lemma contains_of_items (data : list (string * json)) (key : string) :
  CaseInsensitiveDict.__contains__ key (CaseInsensitiveDict.of_items data) = true
  ↔ ∃ k v, (k, v) ∈ data ∧ lower k = lower key.
Proof.
  rewrite <- of_items_is_Some.
  unfold CaseInsensitiveDict.__contains__, CaseInsensitiveDict.__getitem__,
    CaseInsensitiveDict._convert_key.
  destruct (CaseInsensitiveDict.of_items data !! lower key) as [kv|]; split;
    try done; eauto.
Qed.

Lemma oauth_structure_lower (key : string) :
  key ∈ oauth_structure → lower key = key.
Proof.
  unfold oauth_structure. intros Hin.
  repeat (apply elem_of_cons in Hin as [->|Hin]; [reflexivity|]).
  by apply elem_of_nil in Hin.
Qed.

(** C10: [is_oauth] holds exactly of the mappings that have, up to
    letter case, each of the five keys access_token, expires_at,
    expires_in, token_type and refresh_token, whatever their values;
    [is_custom_oauth] returns true exactly when the value under the
    authorization key (the last one stored under that key up to letter
    case) is a string that starts with "Bearer ". *)
Theorem is_oauth_is_custom_oauth_iff (data : list (string * json)) :
  let headers := CaseInsensitiveDict.of_items data in
  (is_oauth headers = true
   ↔ ∀ key, key ∈ oauth_structure → ∃ k v, (k, v) ∈ data ∧ lower k = key)
  ∧ (is_custom_oauth headers = inr true
     ↔ ∃ k s before after,
         data = before ++ (k, JStr s) :: after
         ∧ lower k = "authorization"
         ∧ (∀ k' v', (k', v') ∈ after → lower k' ≠ "authorization")
         ∧ startswith s "Bearer " = true).
Proof.
  intros headers. split.
  - unfold is_oauth. rewrite forallb_forall. split.
    + intros Hall key Hin.
      specialize (Hall key (proj1 (list_elem_of_In _ _) Hin)).
      apply contains_of_items in Hall as (k & v & Hkv & Hk).
      rewrite (oauth_structure_lower key Hin) in Hk. eauto.
    + intros Hall key Hin. apply list_elem_of_In in Hin.
      apply contains_of_items.
      destruct (Hall key Hin) as (k & v & Hkv & Hk).
      exists k, v. by rewrite (oauth_structure_lower key Hin).
  - unfold is_custom_oauth, CaseInsensitiveDict.__contains__,
      CaseInsensitiveDict.__getitem__, CaseInsensitiveDict._convert_key.
    change (lower "authorization") with "authorization".
    destruct (headers !! "authorization") as [[k v]|] eqn:Hget; simpl.
    + apply of_items_lookup in Hget as (before & after & Hdata & Hk & Hafter).
      split.
      * destruct v; try discriminate. intros [= Hs].
        exists k, s, before, after. done.
      * intros (k2 & s & before2 & after2 & Hdata2 & Hk2 & Hafter2 & Hs).
        assert (Hsame : headers !! "authorization" = Some (k2, JStr s)).
        { apply of_items_lookup. exists before2, after2. done. }
        assert (Hhere : headers !! "authorization" = Some (k, v)).
        { apply of_items_lookup. exists before, after. done. }
        rewrite Hhere in Hsame. injection Hsame as -> ->. by rewrite Hs.
    + split; [discriminate|].
      intros (k2 & s & before2 & after2 & Hdata2 & Hk2 & Hafter2 & Hs).
      assert (Hsame : headers !! "authorization" = Some (k2, JStr s)).
      { apply of_items_lookup. exists before2, after2. done. }
      rewrite Hget in Hsame. discriminate.
Qed.

(** ** Comparing the clock with a threshold *)

Lemma py_gt_true (t : Q) (x : Z + Q) : py_gt t x = true ↔ (num_val x < t)%Q.
Proof.
  unfold py_gt. rewrite negb_true_iff. split.
  - intros Hle. apply Qnot_le_lt. intros Hc.
    apply Qle_bool_iff in Hc. congruence.
  - intros Hlt. destruct (Qle_bool t (num_val x)) eqn:Hle; [|done].
    apply Qle_bool_iff in Hle. by apply Qlt_not_le in Hlt.
Qed.

Lemma py_gt_false (t : Q) (x : Z + Q) : py_gt t x = false ↔ (t <= num_val x)%Q.
Proof.
  unfold py_gt. rewrite negb_false_iff. apply Qle_bool_iff.
Qed.

Section properties.
Context {B : Builtins} {C : Constants} {Headers : Type} {HM : HeaderMap Headers}.
Variable initialize_headers : Headers.

(** ** dump_token *)

Lemma dump_token_frame (token : pyval) (filepath : option string) (w : World) :
  let w' := snd (dump_token token filepath w) in
  heap w' = heap w ∧ sent w' = sent w ∧ ticks w' = ticks w ∧ clock w' = clock w.
Proof.
  unfold dump_token. destruct filepath as [path|]; [|done].
  destruct (String.eqb path "" || Nat.ltb 255 (String.length path)); [done|].
  unfold bind, open_w. destruct (open_error w path); [done|].
  destruct token; done.
Qed.

(** C8: saving a token record to a location that is missing, empty or
    longer than 255 characters changes nothing and raises nothing; to
    any other location, one of at most 255 characters, the whole record
    is written when the file can be opened, and the error of [open]
    is raised, with nothing written, when it cannot. *)
Theorem dump_token_noop_or_full_record (record : gmap string json)
    (filepath : option string) (w : World) :
  let token := VJson (JObj record) in
  ((filepath = None ∨ filepath = Some ""
    ∨ ∃ path, filepath = Some path ∧ 255 < String.length path)
   → dump_token token filepath w = (inr tt, w))
  ∧ (∀ path, filepath = Some path → path ≠ "" → String.length path ≤ 255 →
       match open_error w path with
       | None =>
           dump_token token filepath w
           = (inr tt, with_fs (<[path := Some (JObj record)]> (fs w)) w)
       | Some e => dump_token token filepath w = (inl e, w)
       end).
Proof.
  intros token. split.
  - intros [->|[->|(path & -> & Hlen)]]; [done|done|].
    unfold dump_token.
    apply Nat.ltb_lt in Hlen. rewrite Hlen, orb_true_r. done.
  - intros path -> Hne Hlen. unfold dump_token.
    apply String.eqb_neq in Hne. rewrite Hne. simpl.
    assert (Nat.ltb 255 (String.length path) = false) as ->.
    { apply Nat.ltb_ge. lia. }
    unfold bind, open_w. destruct (open_error w path) as [e|]; [done|].
    simpl. unfold with_fs; simpl. by rewrite insert_insert_eq.
Qed.

(** ** _parse_token and the two requests that end in it *)

Lemma parse_token_inv (response : Response) (w : World)
    (token : gmap string json) (w' : World) :
  _parse_token response w = (inr token, w') →
  stamped response (clock w (ticks w)) token ∧ w' = with_ticks (S (ticks w)) w.
Proof.
  unfold _parse_token, stamped, bind, lift, time_time, ret, raise.
  destruct (response_json response) as [e|j]; [discriminate|]. simpl.
  destruct (json_getitem j "expires_in") as [e|expires_in] eqn:Hget; [discriminate|].
  destruct (py_int expires_in) as [e|n] eqn:Hint; [discriminate|].
  destruct j as [| | | | | |body]; try discriminate.
  intros [= <- <-]. split; [|done].
  exists body, expires_in, n. split; [done|]. split; [|done].
  simpl in Hget. unfold dict_getitem in Hget.
  by destruct (body !! "expires_in"); simplify_eq.
Qed.

Lemma parse_token_stamped (body : gmap string json) (expires_in : json) (n : Z) (w : World) :
  body !! "expires_in" = Some expires_in →
  py_int expires_in = inr n →
  _parse_token {| response_json := inr (JObj body) |} w
  = (inr (<["expires_at" := JInt (int_of_float (clock w (ticks w)) + n)]> body),
     with_ticks (S (ticks w)) w).
Proof.
  intros Hget Hint.
  unfold _parse_token, bind, lift, time_time, ret. simpl.
  unfold dict_getitem. rewrite Hget, Hint. done.
Qed.

(** [_parse_token] reads the clock and nothing else. *)
Lemma parse_token_frame (response : Response) (w : World) :
  let w' := snd (_parse_token response w) in
  heap w' = heap w ∧ fs w' = fs w ∧ sent w' = sent w
  ∧ clock w' = clock w ∧ net w' = net w ∧ open_error w' = open_error w.
Proof.
  unfold _parse_token, bind, lift, time_time, ret, raise.
  destruct (response_json response) as [e|j]; [done|]. simpl.
  destruct (json_getitem j "expires_in") as [e|expires_in]; [done|].
  destruct (py_int expires_in) as [e|n]; [done|].
  by destruct j.
Qed.

Lemma refresh_token_unfold (rt : json) (w : World) :
  refresh_token rt w
  = match net w (length (sent w)) with
    | inl e => (inl e, with_sent (sent w ++ [refresh_request rt]) w)
    | inr response => _parse_token response (with_sent (sent w ++ [refresh_request rt]) w)
    end.
Proof.
  unfold refresh_token, _send_request, session_post, bind.
  by destruct (net w (length (sent w))).
Qed.

Lemma get_token_from_code_unfold (device_code : json) (w : World) :
  ∃ request,
    get_token_from_code device_code w
    = match net w (length (sent w)) with
      | inl e => (inl e, with_sent (sent w ++ [request]) w)
      | inr response => _parse_token response (with_sent (sent w ++ [request]) w)
      end
    ∧ is_refresh_request request = false.
Proof.
  eexists. split.
  - unfold get_token_from_code, _send_request, session_post, bind.
    by destruct (net w (length (sent w))).
  - unfold is_refresh_request. simpl. apply andb_false_r.
Qed.

(** C6: a token that [_parse_token] returns is the response body with
    expires_at set to the local clock, read when the response is
    parsed and cut to whole seconds, plus the integer value of the
    body's expires_in; an expires_at sent by the provider changes
    nothing; and this is the only way [get_token_from_code] and
    [refresh_token] produce a token. *)
Theorem expires_at_is_receipt_time_plus_expires_in (w : World)
    (token : gmap string json) (w' : World) :
  (∀ response, _parse_token response w = (inr token, w') →
     stamped response (clock w (ticks w)) token
     ∧ (∃ n, token !! "expires_at" = Some (JInt (int_of_float (clock w (ticks w)) + n))
             ∧ ∀ body, response_json response = inr (JObj body) →
                 (∃ v, body !! "expires_in" = Some v ∧ py_int v = inr n)
                 ∧ ∀ wire, _parse_token {| response_json := inr (JObj (<["expires_at" := wire]> body)) |} w
                           = (inr token, w')))
  ∧ (∀ device_code, get_token_from_code device_code w = (inr token, w') →
       ∃ response, net w (length (sent w)) = inr response
                   ∧ stamped response (clock w (ticks w)) token)
  ∧ (∀ rt, refresh_token rt w = (inr token, w') →
       ∃ response, net w (length (sent w)) = inr response
                   ∧ stamped response (clock w (ticks w)) token).
Proof.
  split; [|split].
  - intros response Hrun.
    destruct (parse_token_inv _ _ _ _ Hrun) as [Hst ->]. split; [done|].
    destruct Hst as (body & expires_in & n & Hjson & Hget & Hint & ->).
    exists n. split; [by rewrite lookup_insert_eq|].
    intros body' Hjson'. rewrite Hjson in Hjson'. injection Hjson' as <-.
    split; [by eauto|]. intros wire.
    rewrite (parse_token_stamped _ expires_in n).
    + by rewrite insert_insert_eq.
    + by rewrite lookup_insert_ne.
    + done.
  - intros device_code Hrun.
    destruct (get_token_from_code_unfold device_code w) as (request & Heq & _).
    rewrite Heq in Hrun.
    destruct (net w (length (sent w))) as [e|response]; [discriminate|].
    exists response. split; [done|].
    by destruct (parse_token_inv _ _ _ _ Hrun) as [Hst _].
  - intros rt Hrun. rewrite refresh_token_unfold in Hrun.
    destruct (net w (length (sent w))) as [e|response]; [discriminate|].
    exists response. split; [done|].
    by destruct (parse_token_inv _ _ _ _ Hrun) as [Hst _].
Qed.

(** C7, as the code has it: when the provider's answer to the code
    exchange carries the authorization_pending error and no expires_in
    field, [get_token_from_code] raises the KeyError of the missing
    field, the code has no error class of its own for this answer,
    and no token is produced; the caller's dicts and the files are as
    before. *)
Theorem get_token_from_code_pending_raises_KeyError (device_code : json)
    (w : World) (body : gmap string json) :
  net w (length (sent w)) = json_response body →
  body !! "error" = Some (JStr "authorization_pending") →
  body !! "expires_in" = None →
  ∃ w', get_token_from_code device_code w = (inl (KeyError "expires_in"), w')
        ∧ heap w' = heap w ∧ fs w' = fs w.
Proof.
  intros Hnet _ Hnone.
  destruct (get_token_from_code_unfold device_code w) as (request & -> & _).
  rewrite Hnet. unfold json_response.
  unfold _parse_token, bind, lift, time_time. simpl.
  unfold dict_getitem. rewrite Hnone. eauto.
Qed.

(** ** setup *)

(** [setup] never gets as far as the exchange: [get_code] hands back
    the coroutine object of [code_response.json()], and reading
    verification_url from it raises.  Only the device-code request
    has been made by then; nothing was shown to the user and nothing
    was saved. *)
Lemma setup_raises (filepath : option string) (open_browser : bool) (w : World) :
  ∃ e, setup filepath open_browser w
       = (inl e, with_sent (sent w ++ [code_request]) w)
       ∧ ∀ response, net w (length (sent w)) = inr response →
           e = TypeError "'coroutine' object is not subscriptable".
Proof.
  unfold setup, get_code, _send_request, session_post, bind, lift, ret.
  destruct (net w (length (sent w))) as [e|response]; simpl.
  - exists e. split; [done|]. discriminate.
  - eexists. split; [done|]. done.
Qed.

(** ** refresh_token *)

Lemma refresh_request_is_refresh (rt : json) :
  is_refresh_request (refresh_request rt) = true.
Proof.
  unfold is_refresh_request, refresh_request. simpl.
  rewrite String.eqb_refl. reflexivity.
Qed.

(** A refresh posts one request, the refresh request, and touches
    neither the caller's dicts nor the files. *)
Lemma refresh_token_frame (rt : json) (w : World) :
  let w' := snd (refresh_token rt w) in
  heap w' = heap w ∧ fs w' = fs w ∧ open_error w' = open_error w
  ∧ sent w' = sent w ++ [refresh_request rt].
Proof.
  rewrite refresh_token_unfold.
  destruct (net w (length (sent w))) as [e|response]; [done|].
  pose proof (parse_token_frame response (with_sent (sent w ++ [refresh_request rt]) w))
    as (Hh & Hf & Hs & _ & _ & Ho).
  simpl in *. done.
Qed.

Lemma refresh_calls_snoc (w w' : World) (request : Request) :
  sent w' = sent w ++ [request] →
  refresh_calls w' = (if is_refresh_request request then S (refresh_calls w) else refresh_calls w).
Proof.
  intros Hs. unfold refresh_calls. rewrite Hs, List.filter_app, length_app. simpl.
  destruct (is_refresh_request request); simpl; lia.
Qed.

Lemma refresh_calls_same (w w' : World) :
  sent w' = sent w → refresh_calls w' = refresh_calls w.
Proof. unfold refresh_calls. by intros ->. Qed.

(** ** load_headers, step by step *)

(** While the token is not within an hour of its expiry, [load_headers]
    goes straight to the headers. *)
Lemma load_headers_fresh (token : nat) (filepath : option string) (w : World)
    (record : gmap string json) (expires_at : json) (threshold : Z + Q) :
  heap w !! token = Some record →
  record !! "expires_at" = Some expires_at →
  py_sub expires_at 3600 = inr threshold →
  py_gt (clock w (ticks w)) threshold = false →
  load_headers initialize_headers token filepath w
  = emit_headers initialize_headers record (with_ticks (S (ticks w)) w).
Proof.
  intros Hheap Hexp Hsub Hgt.
  unfold load_headers, emit_headers, request_headers.
  unfold bind, lift, time_time, deref, ret, dict_getitem. simpl.
  rewrite Hheap, Hexp, Hsub, Hgt. simpl. rewrite Hheap.
  destruct (record !! "token_type"); [|done].
  destruct (record !! "access_token"); done.
Qed.

(** Past that point it refreshes first, merges the answer into the
    caller's dict, saves the dict, and only then builds the headers. *)
Lemma load_headers_stale (token : nat) (filepath : option string) (w : World)
    (record : gmap string json) (expires_at rt : json) (threshold : Z + Q) :
  heap w !! token = Some record →
  record !! "expires_at" = Some expires_at →
  py_sub expires_at 3600 = inr threshold →
  py_gt (clock w (ticks w)) threshold = true →
  record !! "refresh_token" = Some rt →
  load_headers initialize_headers token filepath w
  = match refresh_token rt (with_ticks (S (ticks w)) w) with
    | (inl e, w2) => (inl e, w2)
    | (inr new, w2) =>
        match dump_token (VJson (JObj (new ∪ record))) filepath
                (with_heap (<[token := new ∪ record]> (heap w2)) w2) with
        | (inl e, w4) => (inl e, w4)
        | (inr _, w4) => emit_headers initialize_headers (new ∪ record) w4
        end
    end.
Proof.
  intros Hheap Hexp Hsub Hgt Hrt.
  unfold load_headers.
  unfold bind at 1. unfold time_time at 1.
  unfold bind at 1. unfold deref at 1. simpl heap. rewrite Hheap.
  unfold bind at 1. unfold lift at 1. unfold dict_getitem at 1. rewrite Hexp.
  unfold bind at 1. unfold lift at 1. rewrite Hsub.
  rewrite Hgt.
  unfold bind at 1. unfold bind at 1. unfold deref at 1. simpl heap. rewrite Hheap.
  unfold bind at 1. unfold lift at 1. unfold dict_getitem at 1. rewrite Hrt.
  unfold bind at 1.
  pose proof (refresh_token_frame rt (with_ticks (S (ticks w)) w)) as (Hh2 & _).
  destruct (refresh_token rt (with_ticks (S (ticks w)) w)) as [[e|new] w2]; [done|].
  simpl in Hh2.
  assert (Hheap2 : heap w2 !! token = Some record) by (by rewrite Hh2).
  unfold bind at 1. unfold dict_update, bind at 1. unfold deref at 1.
  rewrite Hheap2.
  unfold bind at 1. unfold deref at 1. simpl heap. rewrite lookup_insert_eq.
  set (w3 := with_heap _ w2).
  pose proof (dump_token_frame (VJson (JObj (new ∪ record))) filepath w3) as (Hh4 & _).
  destruct (dump_token (VJson (JObj (new ∪ record))) filepath w3) as [[e|u] w4]; [done|].
  simpl in Hh4.
  unfold emit_headers, request_headers, bind, lift, deref, time_time, ret, dict_getitem.
  rewrite Hh4. subst w3. simpl heap. rewrite lookup_insert_eq.
  destruct ((new ∪ record) !! "token_type"); [|done].
  destruct ((new ∪ record) !! "access_token"); done.
Qed.

Lemma request_headers_authorization (token_type access_token : json) (now : Q) :
  hm_get "Authorization" (request_headers initialize_headers token_type access_token now)
  = Some (JStr (py_format token_type +:+ " " +:+ py_format access_token)).
Proof.
  unfold request_headers.
  rewrite hm_get_set_ne by (simpl; discriminate).
  rewrite hm_get_set_ne by (simpl; discriminate).
  apply hm_get_set_eq.
Qed.

(** Building the headers reads the clock once and changes nothing
    else. *)
Lemma emit_headers_frame (record : gmap string json) (w : World) :
  let w' := snd (emit_headers initialize_headers record w) in
  heap w' = heap w ∧ fs w' = fs w ∧ sent w' = sent w ∧ console w' = console w.
Proof.
  unfold emit_headers.
  destruct (record !! "token_type"); [|done].
  destruct (record !! "access_token"); done.
Qed.

Lemma emit_headers_inr (record : gmap string json) (w : World) (headers : Headers) :
  fst (emit_headers initialize_headers record w) = inr headers →
  ∃ token_type access_token,
    record !! "token_type" = Some token_type
    ∧ record !! "access_token" = Some access_token
    ∧ headers = request_headers initialize_headers token_type access_token (clock w (ticks w)).
Proof.
  unfold emit_headers.
  destruct (record !! "token_type") as [token_type|]; [|discriminate].
  destruct (record !! "access_token") as [access_token|]; [|discriminate].
  simpl. intros [= <-]. eauto.
Qed.

(** ** load_headers: refresh before use *)

(** C1, as the code has it: when the clock is past expires_at - 3600
    (strictly), [load_headers] posts exactly one refresh request, for
    the record's refresh token; and when it returns headers, their
    Authorization is made of the token type and the access token of
    the caller's record after the refreshed token was merged into it,
    which is the refreshed access token whenever the refreshed token
    has one. *)
Theorem load_headers_stale_refreshes_once (token : nat) (filepath : option string)
    (w : World) (record : gmap string json) (expires_at rt : json) (threshold : Z + Q) :
  heap w !! token = Some record →
  record !! "expires_at" = Some expires_at →
  py_sub expires_at 3600 = inr threshold →
  (num_val threshold < clock w (ticks w))%Q →
  record !! "refresh_token" = Some rt →
  let run := load_headers initialize_headers token filepath w in
  sent (snd run) = sent w ++ [refresh_request rt]
  ∧ refresh_calls (snd run) = S (refresh_calls w)
  ∧ ∀ headers, fst run = inr headers →
      ∃ new token_type access_token,
        fst (refresh_token rt (with_ticks (S (ticks w)) w)) = inr new
        ∧ heap (snd run) !! token = Some (new ∪ record)
        ∧ (new ∪ record) !! "token_type" = Some token_type
        ∧ (new ∪ record) !! "access_token" = Some access_token
        ∧ hm_get "Authorization" headers
          = Some (JStr (py_format token_type +:+ " " +:+ py_format access_token))
        ∧ ∀ a, new !! "access_token" = Some a → access_token = a.
Proof.
  intros Hheap Hexp Hsub Hlt Hrt run.
  apply py_gt_true in Hlt.
  assert (Hsent : sent (snd run) = sent w ++ [refresh_request rt]
          ∧ ∀ headers, fst run = inr headers →
              ∃ new token_type access_token,
                fst (refresh_token rt (with_ticks (S (ticks w)) w)) = inr new
                ∧ heap (snd run) !! token = Some (new ∪ record)
                ∧ (new ∪ record) !! "token_type" = Some token_type
                ∧ (new ∪ record) !! "access_token" = Some access_token
                ∧ hm_get "Authorization" headers
                  = Some (JStr (py_format token_type +:+ " " +:+ py_format access_token))
                ∧ ∀ a, new !! "access_token" = Some a → access_token = a).
  { subst run.
    rewrite (load_headers_stale _ _ _ _ _ _ _ Hheap Hexp Hsub Hlt Hrt).
    pose proof (refresh_token_frame rt (with_ticks (S (ticks w)) w)) as (Hh2 & _ & _ & Hs2).
    destruct (refresh_token rt (with_ticks (S (ticks w)) w)) as [[e|new] w2];
      simpl in Hh2, Hs2; [done|].
    set (w3 := with_heap _ w2).
    pose proof (dump_token_frame (VJson (JObj (new ∪ record))) filepath w3) as (Hh4 & Hs4 & _).
    destruct (dump_token (VJson (JObj (new ∪ record))) filepath w3) as [[e|u] w4];
      simpl in Hh4, Hs4.
    { simpl. split; [by rewrite Hs4, Hs2|]. intros headers [=]. }
    pose proof (emit_headers_frame (new ∪ record) w4) as (Hh5 & _ & Hs5 & _).
    split; [by rewrite Hs5, Hs4, Hs2|].
    intros headers Hout.
    apply emit_headers_inr in Hout as (token_type & access_token & Htt & Hat & ->).
    exists new, token_type, access_token.
    split; [done|]. split.
    { rewrite Hh5, Hh4. subst w3. simpl. by rewrite lookup_insert_eq. }
    split; [done|]. split; [done|].
    split; [apply request_headers_authorization|].
    intros a Ha.
    rewrite (lookup_union_Some_l new record _ _ Ha) in Hat. congruence. }
  destruct Hsent as [Hsent Hhdr]. split; [done|]. split; [|done].
  rewrite (refresh_calls_snoc w (snd run) _ Hsent).
  by rewrite refresh_request_is_refresh.
Qed.

(** C2: when the refresh inside [load_headers] raises, [load_headers]
    raises the same exception and returns no headers; the caller's
    dicts and the files are what they were before the call. *)
Theorem load_headers_refresh_failure_aborts (token : nat) (filepath : option string)
    (w : World) (record : gmap string json) (expires_at rt : json) (threshold : Z + Q)
    (e : exn) (w2 : World) :
  heap w !! token = Some record →
  record !! "expires_at" = Some expires_at →
  py_sub expires_at 3600 = inr threshold →
  (num_val threshold < clock w (ticks w))%Q →
  record !! "refresh_token" = Some rt →
  refresh_token rt (with_ticks (S (ticks w)) w) = (inl e, w2) →
  load_headers initialize_headers token filepath w = (inl e, w2)
  ∧ heap w2 = heap w ∧ fs w2 = fs w.
Proof.
  intros Hheap Hexp Hsub Hlt Hrt Hfail.
  apply py_gt_true in Hlt.
  rewrite (load_headers_stale _ _ _ _ _ _ _ Hheap Hexp Hsub Hlt Hrt), Hfail.
  split; [done|].
  pose proof (refresh_token_frame rt (with_ticks (S (ticks w)) w)) as (Hh & Hf & _).
  rewrite Hfail in Hh, Hf. done.
Qed.

(** C5: while the clock is before expires_at - 3600, [load_headers]
    posts nothing: no refresh is asked for. *)
Theorem load_headers_fresh_never_refreshes (token : nat) (filepath : option string)
    (w : World) (record : gmap string json) (expires_at : json) (threshold : Z + Q) :
  heap w !! token = Some record →
  record !! "expires_at" = Some expires_at →
  py_sub expires_at 3600 = inr threshold →
  (clock w (ticks w) < num_val threshold)%Q →
  let w' := snd (load_headers initialize_headers token filepath w) in
  sent w' = sent w ∧ refresh_calls w' = refresh_calls w.
Proof.
  intros Hheap Hexp Hsub Hlt w'.
  assert (Hgt : py_gt (clock w (ticks w)) threshold = false).
  { apply py_gt_false. by apply Qlt_le_weak. }
  subst w'. rewrite (load_headers_fresh _ _ _ _ _ _ Hheap Hexp Hsub Hgt).
  pose proof (emit_headers_frame record (with_ticks (S (ticks w)) w)) as (_ & _ & Hs & _).
  split; [done|]. by apply refresh_calls_same.
Qed.

(** C9: when [load_headers] does not refresh, that is when the clock
    is at or before expires_at - 3600, the caller's dict is what it
    was, no file is touched, nothing is posted; what comes back is the
    headers built from the record as it stands (or the KeyError of a
    missing token_type or access_token). *)
Theorem load_headers_fresh_frame (token : nat) (filepath : option string)
    (w : World) (record : gmap string json) (expires_at : json) (threshold : Z + Q) :
  heap w !! token = Some record →
  record !! "expires_at" = Some expires_at →
  py_sub expires_at 3600 = inr threshold →
  (clock w (ticks w) <= num_val threshold)%Q →
  let run := load_headers initialize_headers token filepath w in
  heap (snd run) = heap w
  ∧ heap (snd run) !! token = Some record
  ∧ fs (snd run) = fs w
  ∧ sent (snd run) = sent w
  ∧ console (snd run) = console w
  ∧ fst run
    = match record !! "token_type", record !! "access_token" with
      | Some token_type, Some access_token =>
          inr (request_headers initialize_headers token_type access_token
                 (clock w (S (ticks w))))
      | None, _ => inl (KeyError "token_type")
      | _, None => inl (KeyError "access_token")
      end.
Proof.
  intros Hheap Hexp Hsub Hle run.
  apply py_gt_false in Hle.
  subst run. rewrite (load_headers_fresh _ _ _ _ _ _ Hheap Hexp Hsub Hle).
  pose proof (emit_headers_frame record (with_ticks (S (ticks w)) w)) as (Hh & Hf & Hs & Hc).
  simpl in Hh, Hf, Hs, Hc.
  split; [done|]. split; [by rewrite Hh|]. split; [done|]. split; [done|]. split; [done|].
  unfold emit_headers.
  destruct (record !! "token_type"); [|done].
  destruct (record !! "access_token"); done.
Qed.

(** C4: when the answer to the refresh has no refresh_token field, the
    caller's record after [load_headers] merged the refreshed token
    into it still has the refresh token it had; every field the answer
    does have is taken from the answer, and expires_at is the local
    stamp.  In the scenario of a refresh at time 1000 answered with
    access_token A2, expires_in 3600 and token_type Bearer, on a record
    whose refresh token is R1, the merged record has access_token A2,
    expires_at 4600 and refresh_token R1. *)
Theorem load_headers_keeps_refresh_token :
  (∀ (token : nat) (filepath : option string) (w : World)
     (record : gmap string json) (expires_at rt : json) (threshold : Z + Q)
     (body : gmap string json) (expires_in : json) (n : Z),
     heap w !! token = Some record →
     record !! "expires_at" = Some expires_at →
     py_sub expires_at 3600 = inr threshold →
     (num_val threshold < clock w (ticks w))%Q →
     record !! "refresh_token" = Some rt →
     net w (length (sent w)) = json_response body →
     body !! "refresh_token" = None →
     body !! "expires_in" = Some expires_in →
     py_int expires_in = inr n →
     ∃ merged,
       heap (snd (load_headers initialize_headers token filepath w)) !! token = Some merged
       ∧ merged = <["expires_at" := JInt (int_of_float (clock w (S (ticks w))) + n)]> body ∪ record
       ∧ merged !! "refresh_token" = Some rt
       ∧ merged !! "expires_at" = Some (JInt (int_of_float (clock w (S (ticks w))) + n))
       ∧ ∀ k v, k ≠ "expires_at" → body !! k = Some v → merged !! k = Some v)
  ∧ (let w := example_world 1000 (json_response example_refresh_body) (example_token 1000) in
     let run := load_headers (B := example_builtins) (C := example_constants)
                  example_base_headers 0 None w in
     example_token 1000 !! "refresh_token" = Some (JStr "R1")
     ∧ example_refresh_body !! "refresh_token" = None
     ∧ ∃ merged,
         heap (snd run) !! 0%nat = Some merged
         ∧ merged !! "access_token" = Some (JStr "A2")
         ∧ merged !! "expires_at" = Some (JInt 4600)
         ∧ merged !! "refresh_token" = Some (JStr "R1")).
Proof.
  split.
  - intros token filepath w record expires_at rt threshold body expires_in n
      Hheap Hexp Hsub Hlt Hrt Hnet Hnone Hin Hint.
    apply py_gt_true in Hlt.
    rewrite (load_headers_stale _ _ _ _ _ _ _ Hheap Hexp Hsub Hlt Hrt).
    rewrite refresh_token_unfold. simpl. rewrite Hnet. unfold json_response.
    rewrite (parse_token_stamped body expires_in n) by done. simpl.
    set (new := <["expires_at" := _]> body).
    set (w3 := with_heap _ _).
    pose proof (dump_token_frame (VJson (JObj (new ∪ record))) filepath w3) as (Hh4 & _).
    destruct (dump_token (VJson (JObj (new ∪ record))) filepath w3) as [[e|u] w4];
      simpl in Hh4.
    + exists (new ∪ record). split.
      { simpl. rewrite Hh4. subst w3. simpl. by rewrite lookup_insert_eq. }
      split; [done|]. split.
      { rewrite lookup_union_r; [done|]. subst new. by rewrite lookup_insert_ne. }
      split.
      { apply lookup_union_Some_l. subst new. by rewrite lookup_insert_eq. }
      intros k v Hk Hv. apply lookup_union_Some_l. subst new.
      by rewrite lookup_insert_ne.
    + pose proof (emit_headers_frame (new ∪ record) w4) as (Hh5 & _).
      exists (new ∪ record). split.
      { rewrite Hh5, Hh4. subst w3. simpl. by rewrite lookup_insert_eq. }
      split; [done|]. split.
      { rewrite lookup_union_r; [done|]. subst new. by rewrite lookup_insert_ne. }
      split.
      { apply lookup_union_Some_l. subst new. by rewrite lookup_insert_eq. }
      intros k v Hk Hv. apply lookup_union_Some_l. subst new.
      by rewrite lookup_insert_ne.
  - split; [reflexivity|]. split; [reflexivity|].
    eexists. split; [vm_compute; reflexivity|].
    split; [reflexivity|]. split; reflexivity.
Qed.

End properties.

(** C3: [setup] cannot return a token.  Whenever the provider answers
    the device-code request, [get_code] returns the coroutine object of
    the un-awaited [code_response.json()], and [setup] raises TypeError
    on [code['verification_url']]: the user is not prompted, the code is
    not exchanged and nothing is saved. *)
Theorem setup_raises_TypeError {B : Builtins} {C : Constants} (filepath : option string)
    (open_browser : bool) (w : World) (response : Response) :
  net w (length (sent w)) = inr response →
  setup filepath open_browser w
  = (inl (TypeError "'coroutine' object is not subscriptable"),
     with_sent (sent w ++ [code_request]) w).
Proof.
  intros Hnet.
  destruct (setup_raises filepath open_browser w) as (e & -> & He).
  by rewrite (He response Hnet).
Qed.

(** * Concrete runs *)

(** The provider answers the device-code request with device code D1,
    user code U1 and a verification URL; a location is given. *)
Lemma setup_raises_TypeError_run :
  let w := example_world 1000 (json_response example_code_body) ∅ in
  setup (B := example_builtins) (C := example_constants) (Some "oauth.json") false w
  = (inl (TypeError "'coroutine' object is not subscriptable"),
     with_sent [code_request (C := example_constants)] w).
Proof.
  intros w.
  exact (setup_raises_TypeError (B := example_builtins) (C := example_constants)
           (Some "oauth.json") false w
           {| response_json := inr (JObj example_code_body) |} eq_refl).
Defined.

(** At now = 1000 a record with expires_at = 4600 satisfies
    now >= expires_at - 3600, and [load_headers] posts nothing and
    answers with the old access token. *)
Lemma load_headers_at_threshold_skips_refresh :
  let w := example_world 1000 (json_response example_refresh_body) (example_token 4600) in
  let run := load_headers (B := example_builtins) (C := example_constants)
               example_base_headers 0 None w in
  (inject_Z (4600 - 3600) <= clock w (ticks w))%Q
  ∧ sent (snd run) = []
  ∧ refresh_calls (C := example_constants) (snd run) = 0
  ∧ ∃ headers, fst run = inr headers
               ∧ hm_get "Authorization" headers = Some (JStr "Bearer A1").
Proof.
  intros w run. split; [by vm_compute|].
  split; [reflexivity|]. split; [reflexivity|].
  eexists. split; [vm_compute; reflexivity|]. reflexivity.
Qed.

(** One second later the same record is refreshed, once. *)
Lemma load_headers_stale_refreshes_once_run :
  let w := example_world 1001 (json_response example_refresh_body) (example_token 4600) in
  let run := load_headers (B := example_builtins) (C := example_constants)
               example_base_headers 0 (Some "oauth.json") w in
  sent (snd run) = [refresh_request (C := example_constants) (JStr "R1")]
  ∧ refresh_calls (C := example_constants) (snd run) = 1.
Proof.
  intros w run.
  pose proof (load_headers_stale_refreshes_once (B := example_builtins)
                (C := example_constants) example_base_headers 0 (Some "oauth.json") w
                (example_token 4600) (JInt 4600) (JStr "R1") (inl 1000%Z)
                eq_refl eq_refl eq_refl eq_refl eq_refl) as (Hsent & Hcalls & _).
  split; [exact Hsent | exact Hcalls].
Defined.

(** The provider is unreachable when the refresh is due. *)
Lemma load_headers_refresh_failure_aborts_run :
  let unreachable := Exn "ClientConnectorError" "Cannot connect to host" in
  let w := example_world 5000 (inl unreachable) (example_token 4600) in
  load_headers (B := example_builtins) (C := example_constants)
    example_base_headers 0 (Some "oauth.json") w
  = (inl unreachable,
     with_sent [refresh_request (C := example_constants) (JStr "R1")] (with_ticks 1 w)).
Proof.
  intros unreachable w.
  exact (proj1 (load_headers_refresh_failure_aborts (B := example_builtins)
                  (C := example_constants) example_base_headers 0 (Some "oauth.json") w
                  (example_token 4600) (JInt 4600) (JStr "R1") (inl 1000%Z)
                  unreachable _ eq_refl eq_refl eq_refl eq_refl eq_refl eq_refl)).
Defined.

(** A refresh at time 1000 whose answer has no refresh token, saved to
    a file. *)
Lemma load_headers_keeps_refresh_token_run :
  let w := example_world 1000 (json_response example_refresh_body) (example_token 1000) in
  let run := load_headers (B := example_builtins) (C := example_constants)
               example_base_headers 0 (Some "oauth.json") w in
  ∃ merged,
    heap (snd run) !! 0%nat = Some merged
    ∧ merged !! "refresh_token" = Some (JStr "R1").
Proof.
  intros w run.
  destruct (proj1 (load_headers_keeps_refresh_token (B := example_builtins)
                     (C := example_constants) example_base_headers)
              0%nat (Some "oauth.json") w (example_token 1000) (JInt 1000) (JStr "R1")
              (inl (-2600)%Z) example_refresh_body (JInt 3600) 3600%Z
              eq_refl eq_refl eq_refl eq_refl eq_refl eq_refl eq_refl eq_refl eq_refl)
    as (merged & Hheap & _ & Hrt & _).
  exists merged. split; [exact Hheap | exact Hrt].
Defined.

(** A record that expires in more than an hour. *)
Lemma load_headers_fresh_never_refreshes_run :
  let w := example_world 999 (json_response example_refresh_body) (example_token 4600) in
  let w' := snd (load_headers (B := example_builtins) (C := example_constants)
                   example_base_headers 0 (Some "oauth.json") w) in
  sent w' = sent w
  ∧ refresh_calls (C := example_constants) w' = refresh_calls (C := example_constants) w.
Proof.
  intros w w'.
  exact (load_headers_fresh_never_refreshes (B := example_builtins)
           (C := example_constants) example_base_headers 0 (Some "oauth.json") w
           (example_token 4600) (JInt 4600) (inl 1000%Z)
           eq_refl eq_refl eq_refl eq_refl).
Defined.

(** A record exactly one hour from its expiry. *)
Lemma load_headers_fresh_frame_run :
  let w := example_world 1000 (json_response example_refresh_body) (example_token 4600) in
  let run := load_headers (B := example_builtins) (C := example_constants)
               example_base_headers 0 (Some "oauth.json") w in
  heap (snd run) = heap w ∧ fs (snd run) = fs w ∧ sent (snd run) = sent w.
Proof.
  intros w run.
  assert (Hle : (clock w (ticks w) <= num_val (inl 1000%Z))%Q) by (by vm_compute).
  pose proof (load_headers_fresh_frame (B := example_builtins)
                (C := example_constants) example_base_headers 0 (Some "oauth.json") w
                (example_token 4600) (JInt 4600) (inl 1000%Z)
                eq_refl eq_refl eq_refl Hle) as (Hh & _ & Hf & Hs & _).
  split; [exact Hh|]. split; [exact Hf | exact Hs].
Defined.

(** A token answer parsed at time 1000. *)
Lemma expires_at_is_receipt_time_plus_expires_in_run :
  let w := example_world 1000 (json_response example_refresh_body) ∅ in
  stamped (B := example_builtins) {| response_json := inr (JObj example_refresh_body) |}
    1000 (<["expires_at" := JInt 4600]> example_refresh_body).
Proof.
  intros w.
  exact (proj1 (proj1 (expires_at_is_receipt_time_plus_expires_in (B := example_builtins)
                         (C := example_constants) w
                         (<["expires_at" := JInt 4600]> example_refresh_body)
                         (with_ticks 1 w))
                  {| response_json := inr (JObj example_refresh_body) |} eq_refl)).
Defined.

(** The answer the provider gives while the user has not approved has
    no expires_in: the exchange raises KeyError, whose class is not a
    PendingError.  Were expires_in present next to the error, a token
    would come out. *)
Lemma get_token_from_code_pending_is_KeyError :
  let w := example_world 1000 (json_response example_pending_body) ∅ in
  let run := get_token_from_code (B := example_builtins) (C := example_constants)
               (JStr "D1") w in
  let w5 := example_world 1000
              (json_response (<["expires_in" := JInt 5]> example_pending_body)) ∅ in
  let run5 := get_token_from_code (B := example_builtins) (C := example_constants)
                (JStr "D1") w5 in
  example_pending_body !! "error" = Some (JStr "authorization_pending")
  ∧ fst run = inl (KeyError "expires_in")
  ∧ exn_class (KeyError "expires_in") ≠ "PendingError"
  ∧ ∃ token, fst run5 = inr token
             ∧ token !! "error" = Some (JStr "authorization_pending")
             ∧ token !! "expires_at" = Some (JInt 1005).
Proof.
  intros w run w5 run5. split; [reflexivity|]. split; [reflexivity|].
  split; [discriminate|].
  eexists. split; [vm_compute; reflexivity|]. split; reflexivity.
Qed.

Lemma get_token_from_code_pending_raises_KeyError_run :
  let w := example_world 1000 (json_response example_pending_body) ∅ in
  ∃ w', get_token_from_code (B := example_builtins) (C := example_constants) (JStr "D1") w
        = (inl (KeyError "expires_in"), w')
        ∧ heap w' = heap w ∧ fs w' = fs w.
Proof.
  intros w.
  exact (get_token_from_code_pending_raises_KeyError (B := example_builtins)
           (C := example_constants) (JStr "D1") w example_pending_body
           eq_refl eq_refl eq_refl).
Defined.

(** Saving to a location of 10 characters, and to one of 256. *)
Lemma dump_token_noop_or_full_record_run :
  let w := example_world 1000 (json_response example_refresh_body) ∅ in
  let token := VJson (JObj (example_token 4600)) in
  dump_token token (Some "oauth.json") w
  = (inr tt, with_fs {["oauth.json" := Some (JObj (example_token 4600))]} w)
  ∧ dump_token token (Some (String.concat "" (repeat "a" 256))) w = (inr tt, w).
Proof.
  intros w token. split.
  - exact (proj2 (dump_token_noop_or_full_record (example_token 4600) (Some "oauth.json") w)
             "oauth.json" eq_refl ltac:(discriminate) ltac:(simpl; lia)).
  - apply (proj1 (dump_token_noop_or_full_record (example_token 4600)
                    (Some (String.concat "" (repeat "a" 256))) w)).
    right. right. eexists. split; [reflexivity|]. vm_compute. lia.
Defined.

(** A custom OAuth header, whatever the case of its key. *)
Lemma is_oauth_is_custom_oauth_iff_run :
  is_custom_oauth (CaseInsensitiveDict.of_items [("Authorization", JStr "Bearer abc")])
  = inr true.
Proof.
  apply (proj2 (is_oauth_is_custom_oauth_iff [("Authorization", JStr "Bearer abc")])).
  exists "Authorization", "Bearer abc", [], [].
  split; [reflexivity|]. split; [reflexivity|]. split; [|reflexivity].
  intros k' v' Hin. by apply elem_of_nil in Hin.
Defined.

(** * Further properties of the module *)

Section more_properties.
Context {B : Builtins} {C : Constants} {Headers : Type} {HM : HeaderMap Headers}.
Variable initialize_headers : Headers.

(** ** _parse_token: what is accepted *)

(** X1: [_parse_token] returns a token exactly for the answers whose JSON is
    an object with an expires_in that [int] accepts; the token then has
    every field of the answer but expires_at as the provider sent it. *)
Theorem parse_token_accepts_iff (response : Response) (w : World) :
  ((∃ token w', _parse_token response w = (inr token, w'))
   ↔ ∃ body v n, response_json response = inr (JObj body)
                 ∧ body !! "expires_in" = Some v ∧ py_int v = inr n)
  ∧ ∀ token w' body, _parse_token response w = (inr token, w') →
      response_json response = inr (JObj body) →
      ∀ k, k ≠ "expires_at" → token !! k = body !! k.
Proof.
  split; [split|].
  - intros (token & w' & Hrun).
    destruct (parse_token_inv _ _ _ _ Hrun) as [(body & v & n & Hj & Hv & Hn & _) _].
    by exists body, v, n.
  - intros (body & v & n & Hj & Hv & Hn).
    destruct response as [j]. simpl in Hj. subst j.
    eexists _, _. by apply (parse_token_stamped body v n).
  - intros token w' body Hrun Hj k Hk.
    destruct (parse_token_inv _ _ _ _ Hrun) as [(body' & v & n & Hj' & _ & _ & ->) _].
    rewrite Hj in Hj'. injection Hj' as <-. by rewrite lookup_insert_ne.
Qed.

(** X2: An answer that cannot be parsed raises what it raises; what was
    read before is the clock, and nothing is posted, stored or saved. *)
Theorem parse_token_rejects (response : Response) (w : World) :
  let run := _parse_token response w in
  (∀ e, response_json response = inl e → run = (inl e, w))
  ∧ (∀ body, response_json response = inr (JObj body) → body !! "expires_in" = None →
       run = (inl (KeyError "expires_in"), with_ticks (S (ticks w)) w))
  ∧ (∀ j, response_json response = inr j → (∀ body, j ≠ JObj body) →
       ∃ msg, run = (inl (TypeError msg), with_ticks (S (ticks w)) w))
  ∧ (∀ body v, response_json response = inr (JObj body) → body !! "expires_in" = Some v →
       (v = JNull ∨ (∃ l, v = JArr l) ∨ (∃ m, v = JObj m)) →
       ∃ msg, run = (inl (TypeError msg), with_ticks (S (ticks w)) w)).
Proof.
  intros run. subst run.
  unfold _parse_token, bind, lift, time_time, ret, raise.
  split; [|split; [|split]].
  - intros e ->. done.
  - intros body -> Hnone. simpl. unfold dict_getitem. by rewrite Hnone.
  - intros j -> Hnot. destruct j; simpl; eauto. by destruct (Hnot m).
  - intros body v -> Hv Hbad. simpl. unfold dict_getitem. rewrite Hv.
    destruct Hbad as [->|[[l ->]|[m ->]]]; simpl; eauto.
Qed.

(** ** get_token_from_code: one request, nothing else *)

(** X3: Whatever the provider answers, the exchange posts exactly one
    request, the device-grant request with the code; it is not a
    refresh, and the caller's dicts, the files and the console are not
    touched. *)
Theorem get_token_from_code_posts_once (device_code : json) (w : World) :
  let w' := snd (get_token_from_code device_code w) in
  sent w' = sent w ++ [exchange_request device_code]
  ∧ refresh_calls w' = refresh_calls w
  ∧ heap w' = heap w ∧ fs w' = fs w ∧ console w' = console w.
Proof.
  intros w'. subst w'.
  assert (Hrun : get_token_from_code device_code w
          = match net w (length (sent w)) with
            | inl e => (inl e, with_sent (sent w ++ [exchange_request device_code]) w)
            | inr response =>
                _parse_token response (with_sent (sent w ++ [exchange_request device_code]) w)
            end).
  { unfold get_token_from_code, _send_request, session_post, bind.
    by destruct (net w (length (sent w))). }
  assert (Hnot : is_refresh_request (exchange_request device_code) = false).
  { unfold is_refresh_request. simpl. apply andb_false_r. }
  assert (Hsent : sent (snd (get_token_from_code device_code w))
                  = sent w ++ [exchange_request device_code]
                  ∧ heap (snd (get_token_from_code device_code w)) = heap w
                  ∧ fs (snd (get_token_from_code device_code w)) = fs w
                  ∧ console (snd (get_token_from_code device_code w)) = console w).
  { rewrite Hrun. destruct (net w (length (sent w))) as [e|response]; [done|].
    unfold _parse_token, bind, lift, time_time, ret, raise.
    destruct (response_json response) as [e|j]; [done|]. simpl.
    destruct (json_getitem j "expires_in") as [e|expires_in]; [done|].
    destruct (py_int expires_in) as [e|n]; [done|].
    by destruct j. }
  destruct Hsent as (Hs & Hh & Hf & Hc).
  split; [done|]. split; [|done].
  by rewrite (refresh_calls_snoc w _ _ Hs), Hnot.
Qed.

(** ** get_code *)

(** X4: When the provider answers, what [get_code] returns is the coroutine
    object of the answer's [json()], not the answer: no key can be read
    from it. *)
Theorem get_code_returns_coroutine (w : World) (v : pyval) (w' : World) :
  get_code w = (inr v, w') →
  (∃ response, net w (length (sent w)) = inr response
               ∧ v = VCoro (CoResponseJson response))
  ∧ w' = with_sent (sent w ++ [code_request]) w
  ∧ ∀ key, py_getitem v key = inl (TypeError "'coroutine' object is not subscriptable").
Proof.
  unfold get_code, _send_request, session_post, bind, ret.
  destruct (net w (length (sent w))) as [e|response]; [discriminate|].
  intros [= <- <-]. split; [by eauto|]. done.
Qed.

(** ** setup *)

(** X5: Whatever its arguments and whatever the provider does, [setup] ends
    in an exception after the device-code request alone: the browser is
    not opened, the user is not prompted, no file is created. *)
Theorem setup_never_prompts_nor_saves (filepath : option string)
    (open_browser : bool) (w : World) :
  let run := setup filepath open_browser w in
  (∃ e, fst run = inl e)
  ∧ console (snd run) = console w
  ∧ fs (snd run) = fs w
  ∧ heap (snd run) = heap w
  ∧ ticks (snd run) = ticks w
  ∧ sent (snd run) = sent w ++ [code_request].
Proof.
  intros run. subst run.
  destruct (setup_raises filepath open_browser w) as (e & -> & _).
  split; [by exists e|]. done.
Qed.

(** ** dump_token on what cannot be serialised *)

(** X6: Given a coroutine object and a usable location, [dump_token] opens
    the file, which empties it, and then raises the TypeError of
    [json.dump]: what the file held is lost and nothing is written. *)
Theorem dump_token_coroutine_truncates (c : coroutine) (path : string) (w : World) :
  path ≠ "" → String.length path ≤ 255 → open_error w path = None →
  dump_token (VCoro c) (Some path) w
  = (inl (TypeError "Object of type coroutine is not JSON serializable"),
     with_fs (<[path := None]> (fs w)) w).
Proof.
  intros Hne Hlen Hopen. unfold dump_token.
  apply String.eqb_neq in Hne. rewrite Hne. simpl.
  assert (Nat.ltb 255 (String.length path) = false) as ->.
  { apply Nat.ltb_ge. lia. }
  unfold bind, open_w. by rewrite Hopen.
Qed.

(** X7: A save touches one path only. *)
Theorem dump_token_other_files (token : pyval) (filepath : option string)
    (w : World) (other : string) :
  filepath ≠ Some other →
  fs (snd (dump_token token filepath w)) !! other = fs w !! other.
Proof.
  intros Hother. unfold dump_token. destruct filepath as [path|]; [|done].
  destruct (String.eqb path "" || Nat.ltb 255 (String.length path)); [done|].
  assert (path ≠ other) by congruence.
  unfold bind, open_w. destruct (open_error w path); [done|].
  destruct token; simpl; by rewrite !lookup_insert_ne.
Qed.

(** ** load_headers on every record *)

(** The course of [load_headers] on the dict the caller holds. *)
Lemma load_headers_unfold (token : nat) (filepath : option string) (w : World)
    (record : gmap string json) :
  heap w !! token = Some record →
  load_headers initialize_headers token filepath w
  = match record !! "expires_at" with
    | None => (inl (KeyError "expires_at"), with_ticks (S (ticks w)) w)
    | Some expires_at =>
        match py_sub expires_at 3600 with
        | inl e => (inl e, with_ticks (S (ticks w)) w)
        | inr threshold =>
            if py_gt (clock w (ticks w)) threshold then
              match record !! "refresh_token" with
              | None => (inl (KeyError "refresh_token"), with_ticks (S (ticks w)) w)
              | Some rt =>
                  match refresh_token rt (with_ticks (S (ticks w)) w) with
                  | (inl e, w2) => (inl e, w2)
                  | (inr new, w2) =>
                      match dump_token (VJson (JObj (new ∪ record))) filepath
                              (with_heap (<[token := new ∪ record]> (heap w2)) w2) with
                      | (inl e, w4) => (inl e, w4)
                      | (inr _, w4) => emit_headers initialize_headers (new ∪ record) w4
                      end
                  end
              end
            else emit_headers initialize_headers record (with_ticks (S (ticks w)) w)
        end
    end.
Proof.
  intros Hheap.
  destruct (record !! "expires_at") as [expires_at|] eqn:Hexp.
  - destruct (py_sub expires_at 3600) as [e|threshold] eqn:Hsub.
    + unfold load_headers, bind, lift, time_time, deref, dict_getitem. simpl.
      by rewrite Hheap, Hexp, Hsub.
    + destruct (py_gt (clock w (ticks w)) threshold) eqn:Hgt.
      * destruct (record !! "refresh_token") as [rt|] eqn:Hrt.
        -- by apply (load_headers_stale _ _ _ _ _ expires_at rt threshold).
        -- unfold load_headers, bind, lift, time_time, deref, dict_getitem. simpl.
           rewrite Hheap, Hexp, Hsub, Hgt. simpl. by rewrite Hheap, Hrt.
      * by apply (load_headers_fresh _ _ _ _ _ expires_at threshold).
  - unfold load_headers, bind, lift, time_time, deref, dict_getitem. simpl.
    by rewrite Hheap, Hexp.
Qed.

Lemma emit_headers_inv (record : gmap string json) (w : World)
    (headers : Headers) (w' : World) :
  emit_headers initialize_headers record w = (inr headers, w') →
  ∃ token_type access_token,
    record !! "token_type" = Some token_type
    ∧ record !! "access_token" = Some access_token
    ∧ headers = request_headers initialize_headers token_type access_token (clock w (ticks w))
    ∧ w' = with_ticks (S (ticks w)) w.
Proof.
  unfold emit_headers.
  destruct (record !! "token_type") as [token_type|]; [|discriminate].
  destruct (record !! "access_token") as [access_token|]; [|discriminate].
  intros [= <- <-]. by exists token_type, access_token.
Qed.

Lemma dump_token_usable (j : json) (path : string) (w : World) :
  path ≠ "" → String.length path ≤ 255 →
  dump_token (VJson j) (Some path) w
  = match open_error w path with
    | Some e => (inl e, w)
    | None => (inr tt, with_fs (<[path := Some j]> (fs w)) w)
    end.
Proof.
  intros Hne Hlen. unfold dump_token.
  apply String.eqb_neq in Hne. rewrite Hne. simpl.
  assert (Nat.ltb 255 (String.length path) = false) as ->.
  { apply Nat.ltb_ge. lia. }
  unfold bind, open_w. destruct (open_error w path); [done|].
  simpl. unfold with_fs. simpl. by rewrite insert_insert_eq.
Qed.

(** X8: A record that lacks what [load_headers] reads from it: without
    expires_at the call raises KeyError, with an expires_at that is no
    number it raises TypeError, and a record that is due for a refresh
    but has no refresh_token raises KeyError before anything is posted.
    In each case only the clock was read. *)
Theorem load_headers_malformed_record (token : nat) (filepath : option string)
    (w : World) (record : gmap string json) :
  heap w !! token = Some record →
  let run := load_headers initialize_headers token filepath w in
  (record !! "expires_at" = None →
     run = (inl (KeyError "expires_at"), with_ticks (S (ticks w)) w))
  ∧ (∀ v, record !! "expires_at" = Some v →
       (v = JNull ∨ (∃ s, v = JStr s) ∨ (∃ l, v = JArr l) ∨ ∃ m, v = JObj m) →
       ∃ msg, run = (inl (TypeError msg), with_ticks (S (ticks w)) w))
  ∧ (∀ v threshold, record !! "expires_at" = Some v →
       py_sub v 3600 = inr threshold →
       (num_val threshold < clock w (ticks w))%Q →
       record !! "refresh_token" = None →
       run = (inl (KeyError "refresh_token"), with_ticks (S (ticks w)) w)).
Proof.
  intros Hheap run. subst run. rewrite (load_headers_unfold _ _ _ _ Hheap).
  split; [|split].
  - by intros ->.
  - intros v -> Hbad.
    destruct Hbad as [->|[[s ->]|[[l ->]|[m ->]]]]; simpl; eauto.
  - intros v threshold -> -> Hlt ->.
    apply py_gt_true in Hlt. by rewrite Hlt.
Qed.

(** X9: When the refresh succeeds but the file cannot be opened,
    [load_headers] raises the error of [open] and returns no headers,
    yet the caller's dict already holds the refreshed token; no file
    has changed. *)
Theorem load_headers_save_failure_keeps_merge (token : nat) (path : string)
    (w : World) (record : gmap string json) (expires_at rt : json) (threshold : Z + Q)
    (new : gmap string json) (w2 : World) (e : exn) :
  heap w !! token = Some record →
  record !! "expires_at" = Some expires_at →
  py_sub expires_at 3600 = inr threshold →
  (num_val threshold < clock w (ticks w))%Q →
  record !! "refresh_token" = Some rt →
  refresh_token rt (with_ticks (S (ticks w)) w) = (inr new, w2) →
  path ≠ "" → String.length path ≤ 255 → open_error w path = Some e →
  let run := load_headers initialize_headers token (Some path) w in
  fst run = inl e
  ∧ heap (snd run) !! token = Some (new ∪ record)
  ∧ fs (snd run) = fs w
  ∧ sent (snd run) = sent w ++ [refresh_request rt].
Proof.
  intros Hheap Hexp Hsub Hlt Hrt Hrefresh Hne Hlen Hopen run. subst run.
  apply py_gt_true in Hlt.
  rewrite (load_headers_unfold _ _ _ _ Hheap), Hexp, Hsub, Hlt, Hrt, Hrefresh.
  pose proof (refresh_token_frame rt (with_ticks (S (ticks w)) w)) as (Hh & Hf & Ho & Hs).
  rewrite Hrefresh in Hh, Hf, Ho, Hs. simpl in Hh, Hf, Ho, Hs.
  rewrite (dump_token_usable _ _ _ Hne Hlen). simpl.
  rewrite Ho, Hopen. simpl.
  split; [done|]. split; [by rewrite lookup_insert_eq|]. done.
Qed.

(** X10: When [load_headers] refreshes and returns, with a usable location,
    the file at that location holds exactly the record the caller now
    holds, and no other file has changed. *)
Theorem load_headers_saves_what_it_merged (token : nat) (path : string)
    (w : World) (record : gmap string json) (expires_at rt : json) (threshold : Z + Q)
    (headers : Headers) (w' : World) :
  heap w !! token = Some record →
  record !! "expires_at" = Some expires_at →
  py_sub expires_at 3600 = inr threshold →
  (num_val threshold < clock w (ticks w))%Q →
  record !! "refresh_token" = Some rt →
  path ≠ "" → String.length path ≤ 255 →
  load_headers initialize_headers token (Some path) w = (inr headers, w') →
  ∃ record',
    heap w' !! token = Some record'
    ∧ fs w' !! path = Some (Some (JObj record'))
    ∧ ∀ other, other ≠ path → fs w' !! other = fs w !! other.
Proof.
  intros Hheap Hexp Hsub Hlt Hrt Hne Hlen.
  apply py_gt_true in Hlt.
  rewrite (load_headers_unfold _ _ _ _ Hheap), Hexp, Hsub, Hlt, Hrt.
  pose proof (refresh_token_frame rt (with_ticks (S (ticks w)) w)) as (Hh & Hf & Ho & Hs).
  destruct (refresh_token rt (with_ticks (S (ticks w)) w)) as [[e|new] w2];
    [discriminate|].
  simpl in Hh, Hf, Ho, Hs.
  rewrite (dump_token_usable _ _ _ Hne Hlen). simpl.
  destruct (open_error w2 path) as [e|]; [discriminate|].
  intros Hemit. apply emit_headers_inv in Hemit as (tt' & at' & _ & _ & _ & ->).
  exists (new ∪ record). simpl.
  split; [by rewrite lookup_insert_eq|].
  split; [by rewrite lookup_insert_eq|].
  intros other Hother. by rewrite lookup_insert_ne, Hf.
Qed.

Lemma request_headers_lookup (token_type access_token : json) (now : Q) :
  let headers := request_headers initialize_headers token_type access_token now in
  hm_get "Content-Type" headers = Some (JStr "application/json")
  ∧ hm_get "X-Goog-Request-Time" headers = Some (JStr (pretty (int_of_float now)))
  ∧ ∀ k, lower k ≠ "authorization" → lower k ≠ "content-type" →
         lower k ≠ "x-goog-request-time" →
         hm_get k headers = hm_get k initialize_headers.
Proof.
  unfold request_headers. split; [|split].
  - rewrite hm_get_set_ne by (simpl; discriminate). apply hm_get_set_eq.
  - apply hm_get_set_eq.
  - intros k Ha Hc Hx.
    rewrite hm_get_set_ne by (intros Heq; apply Hx; by rewrite <- Heq).
    rewrite hm_get_set_ne by (intros Heq; apply Hc; by rewrite <- Heq).
    rewrite hm_get_set_ne by (intros Heq; apply Ha; by rewrite <- Heq).
    done.
Qed.

(** X11: Whenever [load_headers] returns, refreshed or not: Authorization is
    made of the token type and access token of the dict the caller
    holds after the call, Content-Type is application/json,
    X-Goog-Request-Time is the last reading of the clock in whole
    seconds, and every other header is the one [initialize_headers]
    gave. *)
Theorem load_headers_returned_headers (token : nat) (filepath : option string)
    (w : World) (headers : Headers) (w' : World) :
  load_headers initialize_headers token filepath w = (inr headers, w') →
  ∃ record' token_type access_token,
    heap w' !! token = Some record'
    ∧ record' !! "token_type" = Some token_type
    ∧ record' !! "access_token" = Some access_token
    ∧ hm_get "Authorization" headers
      = Some (JStr (py_format token_type +:+ " " +:+ py_format access_token))
    ∧ hm_get "Content-Type" headers = Some (JStr "application/json")
    ∧ hm_get "X-Goog-Request-Time" headers
      = Some (JStr (pretty (int_of_float (clock w' (pred (ticks w'))))))
    ∧ ∀ k, lower k ≠ "authorization" → lower k ≠ "content-type" →
           lower k ≠ "x-goog-request-time" →
           hm_get k headers = hm_get k initialize_headers.
Proof.
  destruct (heap w !! token) as [record|] eqn:Hheap.
  2: { unfold load_headers, bind, time_time, deref. simpl. by rewrite Hheap. }
  rewrite (load_headers_unfold _ _ _ _ Hheap).
  assert (Hemit : ∀ record' w4, heap w4 !! token = Some record' →
            emit_headers initialize_headers record' w4 = (inr headers, w') →
            ∃ record' token_type access_token,
              heap w' !! token = Some record'
              ∧ record' !! "token_type" = Some token_type
              ∧ record' !! "access_token" = Some access_token
              ∧ hm_get "Authorization" headers
                = Some (JStr (py_format token_type +:+ " " +:+ py_format access_token))
              ∧ hm_get "Content-Type" headers = Some (JStr "application/json")
              ∧ hm_get "X-Goog-Request-Time" headers
                = Some (JStr (pretty (int_of_float (clock w' (pred (ticks w'))))))
              ∧ ∀ k, lower k ≠ "authorization" → lower k ≠ "content-type" →
                     lower k ≠ "x-goog-request-time" →
                     hm_get k headers = hm_get k initialize_headers).
  { intros record' w4 Hh4 Hrun.
    apply emit_headers_inv in Hrun as (token_type & access_token & Htt & Hat & -> & ->).
    exists record', token_type, access_token. simpl.
    split; [done|]. split; [done|]. split; [done|].
    split; [apply request_headers_authorization|].
    apply request_headers_lookup. }
  destruct (record !! "expires_at") as [expires_at|]; [|discriminate].
  destruct (py_sub expires_at 3600) as [e|threshold]; [discriminate|].
  destruct (py_gt (clock w (ticks w)) threshold).
  - destruct (record !! "refresh_token") as [rt|]; [|discriminate].
    pose proof (refresh_token_frame rt (with_ticks (S (ticks w)) w)) as (Hh2 & _).
    destruct (refresh_token rt (with_ticks (S (ticks w)) w)) as [[e|new] w2];
      [discriminate|].
    set (w3 := with_heap _ w2).
    pose proof (dump_token_frame (VJson (JObj (new ∪ record))) filepath w3) as (Hh4 & _).
    destruct (dump_token (VJson (JObj (new ∪ record))) filepath w3) as [[e|u] w4];
      [discriminate|].
    simpl in Hh4. apply Hemit.
    rewrite Hh4. subst w3. simpl. by rewrite lookup_insert_eq.
  - by apply Hemit.
Qed.

(** What [load_headers] can do to the caller's dicts: nothing, or put
    the refreshed token over the record. *)
Lemma load_headers_heap (token : nat) (filepath : option string) (w : World)
    (record : gmap string json) :
  heap w !! token = Some record →
  let w' := snd (load_headers initialize_headers token filepath w) in
  heap w' = heap w ∨ ∃ new, heap w' = <[token := new ∪ record]> (heap w).
Proof.
  intros Hheap w'. subst w'. rewrite (load_headers_unfold _ _ _ _ Hheap).
  destruct (record !! "expires_at") as [expires_at|]; [|by left].
  destruct (py_sub expires_at 3600) as [e|threshold]; [by left|].
  destruct (py_gt (clock w (ticks w)) threshold).
  - destruct (record !! "refresh_token") as [rt|]; [|by left].
    pose proof (refresh_token_frame rt (with_ticks (S (ticks w)) w)) as (Hh2 & _).
    destruct (refresh_token rt (with_ticks (S (ticks w)) w)) as [[e|new] w2];
      simpl in Hh2; [by left|].
    set (w3 := with_heap _ w2).
    pose proof (dump_token_frame (VJson (JObj (new ∪ record))) filepath w3) as (Hh4 & _).
    destruct (dump_token (VJson (JObj (new ∪ record))) filepath w3) as [[e|u] w4];
      simpl in Hh4.
    + right. exists new. simpl. rewrite Hh4. subst w3. simpl. by rewrite Hh2.
    + pose proof (emit_headers_frame initialize_headers (new ∪ record) w4) as (Hh5 & _).
      right. exists new. rewrite Hh5, Hh4. subst w3. simpl. by rewrite Hh2.
  - pose proof (emit_headers_frame initialize_headers record (with_ticks (S (ticks w)) w))
      as (Hh & _).
    by left.
Qed.

(** X12: Whatever the outcome, [load_headers] never removes a field from the
    caller's record and never touches another dict. *)
Theorem load_headers_keeps_every_key (token : nat) (filepath : option string)
    (w : World) (record : gmap string json) :
  heap w !! token = Some record →
  let w' := snd (load_headers initialize_headers token filepath w) in
  (∃ record', heap w' !! token = Some record'
              ∧ ∀ k, is_Some (record !! k) → is_Some (record' !! k))
  ∧ ∀ other, other ≠ token → heap w' !! other = heap w !! other.
Proof.
  intros Hheap w'.
  destruct (load_headers_heap token filepath w record Hheap) as [Hsame|[new Hnew]];
    fold w' in Hsame || fold w' in Hnew.
  - rewrite Hsame. split; [by exists record|done].
  - rewrite Hnew. split.
    + exists (new ∪ record). split; [by rewrite lookup_insert_eq|].
      intros k [v Hv]. destruct (new !! k) as [v'|] eqn:Hk.
      * exists v'. by apply lookup_union_Some_l.
      * exists v. by rewrite lookup_union_r.
    + intros other Hother. by rewrite lookup_insert_ne.
Qed.

(** X13: After a refresh that [load_headers] completed, a second call does
    not refresh again as long as the clock has not passed the new
    expires_at - 3600: it posts nothing and leaves the record and the
    files alone. *)
Theorem load_headers_no_second_refresh (token : nat) (filepath : option string)
    (w : World) (record : gmap string json) (expires_at rt : json) (threshold : Z + Q)
    (body : gmap string json) (expires_in : json) (n : Z)
    (headers : Headers) (w1 : World) :
  heap w !! token = Some record →
  record !! "expires_at" = Some expires_at →
  py_sub expires_at 3600 = inr threshold →
  (num_val threshold < clock w (ticks w))%Q →
  record !! "refresh_token" = Some rt →
  net w (length (sent w)) = json_response body →
  body !! "expires_in" = Some expires_in →
  py_int expires_in = inr n →
  load_headers initialize_headers token filepath w = (inr headers, w1) →
  (clock w1 (ticks w1)
   <= inject_Z (int_of_float (clock w (S (ticks w))) + n - 3600))%Q →
  let w2 := snd (load_headers initialize_headers token filepath w1) in
  sent w2 = sent w1 ∧ heap w2 = heap w1 ∧ fs w2 = fs w1.
Proof.
  intros Hheap Hexp Hsub Hlt Hrt Hnet Hin Hint Hrun Hnext w2. subst w2.
  apply py_gt_true in Hlt.
  rewrite (load_headers_unfold _ _ _ _ Hheap), Hexp, Hsub, Hlt, Hrt in Hrun.
  rewrite refresh_token_unfold in Hrun. simpl in Hrun. rewrite Hnet in Hrun.
  unfold json_response in Hrun.
  rewrite (parse_token_stamped body expires_in n) in Hrun by done. simpl in Hrun.
  set (stamp := (int_of_float (clock w (S (ticks w))) + n)%Z) in *.
  set (new := <["expires_at" := JInt stamp]> body) in *.
  set (w3 := with_heap _ _) in Hrun.
  pose proof (dump_token_frame (VJson (JObj (new ∪ record))) filepath w3) as (Hh4 & _).
  destruct (dump_token (VJson (JObj (new ∪ record))) filepath w3) as [[e|u] w4];
    [discriminate|].
  simpl in Hh4.
  apply emit_headers_inv in Hrun as (tt' & at' & _ & _ & _ & ->).
  assert (Hheap1 : heap (with_ticks (S (ticks w4)) w4) !! token = Some (new ∪ record)).
  { simpl. rewrite Hh4. subst w3. simpl. by rewrite lookup_insert_eq. }
  assert (Hexp1 : (new ∪ record) !! "expires_at" = Some (JInt stamp)).
  { apply lookup_union_Some_l. subst new. by rewrite lookup_insert_eq. }
  assert (Hgt : py_gt (clock (with_ticks (S (ticks w4)) w4) (ticks (with_ticks (S (ticks w4)) w4)))
                  (inl (stamp - 3600)%Z) = false).
  { by apply py_gt_false. }
  rewrite (load_headers_fresh initialize_headers _ _ _ _ (JInt stamp) (inl (stamp - 3600)%Z)
             Hheap1 Hexp1 eq_refl Hgt).
  pose proof (emit_headers_frame initialize_headers (new ∪ record)
                (with_ticks (S (ticks (with_ticks (S (ticks w4)) w4))) (with_ticks (S (ticks w4)) w4)))
    as (Hh & Hf & Hs & _).
  done.
Qed.

(** ** Token records and the two classifiers *)

(** [is_oauth] of the case-insensitive dict made from a dict, in
    whatever order its items are taken. *)
Lemma is_oauth_of_dict (d : gmap string json) (data : list (string * json)) :
  data ≡ₚ map_to_list d →
  is_oauth (CaseInsensitiveDict.of_items data) = true
  ↔ ∀ key, key ∈ oauth_structure → ∃ k, lower k = key ∧ is_Some (d !! k).
Proof.
  intros Hperm. unfold is_oauth. rewrite forallb_forall. split.
  - intros Hall key Hin.
    specialize (Hall key (proj1 (list_elem_of_In _ _) Hin)).
    apply contains_of_items in Hall as (k & v & Hkv & Hk).
    rewrite (oauth_structure_lower key Hin) in Hk.
    exists k. split; [done|].
    rewrite Hperm in Hkv. apply elem_of_map_to_list in Hkv. by exists v.
  - intros Hall key Hin. apply list_elem_of_In in Hin.
    destruct (Hall key Hin) as (k & Hk & [v Hv]).
    apply contains_of_items. exists k, v. split.
    + rewrite Hperm. by apply elem_of_map_to_list.
    + by rewrite (oauth_structure_lower key Hin).
Qed.

Lemma load_headers_record_grows (token : nat) (filepath : option string)
    (w : World) (record : gmap string json) :
  heap w !! token = Some record →
  ∃ record',
    heap (snd (load_headers initialize_headers token filepath w)) !! token = Some record'
    ∧ ∀ k, is_Some (record !! k) → is_Some (record' !! k).
Proof.
  intros Hheap.
  destruct (load_headers_heap token filepath w record Hheap) as [Hsame|[new Hnew]].
  - rewrite Hsame. by exists record.
  - rewrite Hnew. exists (new ∪ record). split; [by rewrite lookup_insert_eq|].
    intros k [v Hv]. destruct (new !! k) as [v'|] eqn:Hk.
    + exists v'. by apply lookup_union_Some_l.
    + exists v. by rewrite lookup_union_r.
Qed.

(** X14: The token that the code exchange returns for an answer with an
    access_token, a token_type and a refresh_token is one that
    [is_oauth] recognises, once made a case-insensitive dict. *)
Theorem exchanged_token_is_oauth (device_code : json) (w : World)
    (body token : gmap string json) (w' : World) (data : list (string * json)) :
  net w (length (sent w)) = json_response body →
  is_Some (body !! "access_token") →
  is_Some (body !! "token_type") →
  is_Some (body !! "refresh_token") →
  get_token_from_code device_code w = (inr token, w') →
  data ≡ₚ map_to_list token →
  is_oauth (CaseInsensitiveDict.of_items data) = true.
Proof.
  intros Hnet Hat Htt Hrt Hrun Hperm.
  destruct (get_token_from_code_unfold device_code w) as (request & Heq & _).
  rewrite Heq, Hnet in Hrun. unfold json_response in Hrun.
  destruct (parse_token_inv _ _ _ _ Hrun) as [(body' & v & n & Hj & Hv & _ & ->) _].
  simpl in Hj. injection Hj as <-.
  apply (is_oauth_of_dict _ _ Hperm).
  intros key Hin. exists key. split; [by apply oauth_structure_lower|].
  unfold oauth_structure in Hin.
  repeat (apply elem_of_cons in Hin as [->|Hin]);
    try (by rewrite lookup_insert_eq);
    try (by rewrite lookup_insert_ne).
  by apply elem_of_nil in Hin.
Qed.

(** X15: A record that [is_oauth] recognises before [load_headers] is one it
    recognises after, whether the call refreshed, returned or raised. *)
Theorem load_headers_keeps_is_oauth (token : nat) (filepath : option string)
    (w : World) (record : gmap string json) (data : list (string * json)) :
  heap w !! token = Some record →
  data ≡ₚ map_to_list record →
  is_oauth (CaseInsensitiveDict.of_items data) = true →
  ∃ record',
    heap (snd (load_headers initialize_headers token filepath w)) !! token = Some record'
    ∧ ∀ data', data' ≡ₚ map_to_list record' →
        is_oauth (CaseInsensitiveDict.of_items data') = true.
Proof.
  intros Hheap Hperm Hoauth.
  destruct (load_headers_record_grows token filepath w record Hheap)
    as (record' & Hheap' & Hgrows).
  exists record'. split; [done|]. intros data' Hperm'.
  apply (is_oauth_of_dict _ _ Hperm').
  intros key Hin.
  destruct (proj1 (is_oauth_of_dict _ _ Hperm) Hoauth key Hin) as (k & Hk & Hsome).
  exists k. split; [done|]. by apply Hgrows.
Qed.

(** X16: [is_custom_oauth] on every mapping: false when no key is
    authorization up to letter case; otherwise it looks at the value
    last stored under such a key, answers whether it starts with
    "Bearer " when it is a string, and raises AttributeError when it
    is not. *)
Theorem is_custom_oauth_outcomes (data : list (string * json)) :
  let headers := CaseInsensitiveDict.of_items data in
  ((∀ k v, (k, v) ∈ data → lower k ≠ "authorization") →
   is_custom_oauth headers = inr false)
  ∧ ∀ k v before after,
      data = before ++ (k, v) :: after →
      lower k = "authorization" →
      (∀ k' v', (k', v') ∈ after → lower k' ≠ "authorization") →
      is_custom_oauth headers
      = match v with
        | JStr s => inr (startswith s "Bearer ")
        | _ => inl (AttributeError ("'" +:+ type_name v
                                     +:+ "' object has no attribute 'startswith'"))
        end.
Proof.
  intros headers. split.
  - intros Hnone.
    unfold is_custom_oauth, CaseInsensitiveDict.__contains__,
      CaseInsensitiveDict.__getitem__, CaseInsensitiveDict._convert_key.
    change (lower "authorization") with "authorization".
    destruct (headers !! "authorization") as [kv|] eqn:Hget; [|done].
    assert (Hsome : is_Some (headers !! "authorization")) by (by rewrite Hget).
    apply of_items_is_Some in Hsome as (k & v & Hin & Hk).
    by destruct (Hnone k v Hin).
  - intros k v before after Hdata Hk Hafter.
    assert (Hget : headers !! "authorization" = Some (k, v)).
    { apply of_items_lookup. by exists before, after. }
    unfold is_custom_oauth, CaseInsensitiveDict.__contains__,
      CaseInsensitiveDict.__getitem__, CaseInsensitiveDict._convert_key.
    change (lower "authorization") with "authorization".
    rewrite Hget. simpl. by destruct v.
Qed.

End more_properties.

(** * Further concrete runs *)

(** [get_code] against a provider that answers. *)
Lemma get_code_returns_coroutine_run :
  let w := example_world 1000 (json_response example_code_body) ∅ in
  py_getitem (VCoro (CoResponseJson {| response_json := inr (JObj example_code_body) |}))
    "device_code"
  = inl (TypeError "'coroutine' object is not subscriptable").
Proof.
  intros w.
  exact (proj2 (proj2 (get_code_returns_coroutine (C := example_constants) w _ _ eq_refl))
           "device_code").
Defined.

(** Saving a coroutine object over a token file. *)
Lemma dump_token_coroutine_truncates_run :
  let w := with_fs {["oauth.json" := Some (JObj (example_token 4600))]}
             (example_world 1000 (json_response example_code_body) ∅) in
  dump_token (VCoro (CoGetTokenFromCode (JStr "D1"))) (Some "oauth.json") w
  = (inl (TypeError "Object of type coroutine is not JSON serializable"),
     with_fs (<["oauth.json" := None]> (fs w)) w).
Proof.
  intros w.
  exact (dump_token_coroutine_truncates (CoGetTokenFromCode (JStr "D1")) "oauth.json" w
           ltac:(discriminate) ltac:(simpl; lia) eq_refl).
Defined.

Lemma dump_token_other_files_run :
  let w := with_fs {["other.json" := Some JNull]}
             (example_world 1000 (json_response example_code_body) ∅) in
  fs (snd (dump_token (VJson (JObj (example_token 4600))) (Some "oauth.json") w))
    !! "other.json"
  = fs w !! "other.json".
Proof.
  intros w.
  exact (dump_token_other_files (VJson (JObj (example_token 4600))) (Some "oauth.json") w
           "other.json" ltac:(discriminate)).
Defined.

(** A caller that holds an empty dict. *)
Lemma load_headers_malformed_record_run :
  let w := example_world 1000 (json_response example_refresh_body) ∅ in
  load_headers (B := example_builtins) (C := example_constants) example_base_headers 0 None w
  = (inl (KeyError "expires_at"), with_ticks 1 w).
Proof.
  intros w.
  exact (proj1 (load_headers_malformed_record (B := example_builtins)
                  (C := example_constants) example_base_headers 0 None w ∅ eq_refl)
           eq_refl).
Defined.

(** A refresh that succeeds on a file system that refuses the save. *)
Lemma load_headers_save_failure_keeps_merge_run :
  let w := read_only (example_world 5000 (json_response example_refresh_body)
                        (example_token 4600)) in
  let run := load_headers (B := example_builtins) (C := example_constants)
               example_base_headers 0 (Some "oauth.json") w in
  fst run = inl (Exn "PermissionError" "Permission denied")
  ∧ (∃ merged, heap (snd run) !! 0%nat = Some merged
               ∧ merged !! "access_token" = Some (JStr "A2"))
  ∧ fs (snd run) = ∅.
Proof.
  intros w run.
  pose proof (load_headers_save_failure_keeps_merge (B := example_builtins)
                (C := example_constants) example_base_headers 0 "oauth.json" w
                (example_token 4600) (JInt 4600) (JStr "R1") (inl 1000%Z)
                (<["expires_at" := JInt 8600]> example_refresh_body) _
                (Exn "PermissionError" "Permission denied")
                eq_refl eq_refl eq_refl eq_refl eq_refl eq_refl
                ltac:(discriminate) ltac:(simpl; lia) eq_refl) as (Hout & Hheap & Hfs & _).
  split; [exact Hout|]. split; [|exact Hfs].
  eexists. split; [exact Hheap | reflexivity].
Defined.

(** The same refresh where the save goes through. *)
Lemma load_headers_saves_what_it_merged_run :
  let w := example_world 5000 (json_response example_refresh_body) (example_token 4600) in
  let run := load_headers (B := example_builtins) (C := example_constants)
               example_base_headers 0 (Some "oauth.json") w in
  ∃ record', heap (snd run) !! 0%nat = Some record'
             ∧ fs (snd run) !! "oauth.json" = Some (Some (JObj record')).
Proof.
  intros w run.
  assert (Hrun : run = (inr (request_headers (B := example_builtins) example_base_headers
                               (JStr "Bearer") (JStr "A2") 5000), snd run))
    by (vm_compute; reflexivity).
  destruct (load_headers_saves_what_it_merged (B := example_builtins)
              (C := example_constants) example_base_headers 0 "oauth.json" w
              (example_token 4600) (JInt 4600) (JStr "R1") (inl 1000%Z) _ _
              eq_refl eq_refl eq_refl eq_refl eq_refl
              ltac:(discriminate) ltac:(simpl; lia) Hrun)
    as (record' & Hheap & Hfs & _).
  exists record'. split; [exact Hheap | exact Hfs].
Defined.

(** The headers of a call that does not refresh. *)
Lemma load_headers_returned_headers_run :
  let w := example_world 1000 (json_response example_refresh_body) (example_token 4600) in
  let run := load_headers (B := example_builtins) (C := example_constants)
               example_base_headers 0 None w in
  ∃ headers, fst run = inr headers
             ∧ hm_get "Content-Type" headers = Some (JStr "application/json")
             ∧ hm_get "user-agent" headers = hm_get "user-agent" example_base_headers.
Proof.
  intros w run.
  assert (Hrun : run = (inr (request_headers (B := example_builtins) example_base_headers
                               (JStr "Bearer") (JStr "A1") 1000), snd run))
    by (vm_compute; reflexivity).
  destruct (load_headers_returned_headers (B := example_builtins)
              (C := example_constants) example_base_headers 0 None w _ _ Hrun)
    as (record' & token_type & access_token & _ & _ & _ & _ & Hct & _ & Hother).
  eexists. split; [by rewrite Hrun|]. split; [exact Hct|].
  apply Hother; discriminate.
Defined.

(** A refresh whose answer has neither token type nor refresh token
    to add. *)
Lemma load_headers_keeps_every_key_run :
  let w := example_world 5000 (json_response example_refresh_body) (example_token 4600) in
  let run := load_headers (B := example_builtins) (C := example_constants)
               example_base_headers 0 None w in
  ∃ record', heap (snd run) !! 0%nat = Some record'
             ∧ is_Some (record' !! "refresh_token").
Proof.
  intros w run.
  destruct (proj1 (load_headers_keeps_every_key (B := example_builtins)
                     (C := example_constants) example_base_headers 0 None w
                     (example_token 4600) eq_refl))
    as (record' & Hheap & Hkeys).
  exists record'. split; [exact Hheap|].
  apply Hkeys. by eexists.
Defined.

(** Two calls in a row at time 5000: the first refreshes and stamps
    expires_at = 8600, the second posts nothing. *)
Lemma load_headers_no_second_refresh_run :
  let w := example_world 5000 (json_response example_refresh_body) (example_token 4600) in
  let w1 := snd (load_headers (B := example_builtins) (C := example_constants)
                   example_base_headers 0 None w) in
  let w2 := snd (load_headers (B := example_builtins) (C := example_constants)
                   example_base_headers 0 None w1) in
  sent w2 = sent w1 ∧ heap w2 = heap w1 ∧ fs w2 = fs w1.
Proof.
  intros w w1 w2.
  assert (Hrun : load_headers (B := example_builtins) (C := example_constants)
                   example_base_headers 0 None w
                 = (inr (request_headers (B := example_builtins) example_base_headers
                           (JStr "Bearer") (JStr "A2") 5000), w1))
    by (vm_compute; reflexivity).
  assert (Hnext : (clock w1 (ticks w1)
                   <= inject_Z (int_of_float (clock w (S (ticks w))) + 3600 - 3600))%Q)
    by (by vm_compute).
  exact (load_headers_no_second_refresh (B := example_builtins)
           (C := example_constants) example_base_headers 0 None w
           (example_token 4600) (JInt 4600) (JStr "R1") (inl 1000%Z)
           example_refresh_body (JInt 3600) 3600%Z _ w1
           eq_refl eq_refl eq_refl eq_refl eq_refl eq_refl eq_refl eq_refl Hrun Hnext).
Defined.

(** The token of a completed exchange. *)
Lemma exchanged_token_is_oauth_run :
  let w := example_world 1000 (json_response example_exchange_body) ∅ in
  let token := <["expires_at" := JInt 4600]> example_exchange_body in
  is_oauth (CaseInsensitiveDict.of_items (map_to_list token)) = true.
Proof.
  intros w token.
  exact (exchanged_token_is_oauth (B := example_builtins) (C := example_constants)
           (JStr "D1") w example_exchange_body token _ (map_to_list token)
           eq_refl ltac:(by eexists) ltac:(by eexists) ltac:(by eexists)
           eq_refl ltac:(reflexivity)).
Defined.

(** A token record before and after a refresh. *)
Lemma load_headers_keeps_is_oauth_run :
  let w := example_world 5000 (json_response example_refresh_body) (example_token 4600) in
  let run := load_headers (B := example_builtins) (C := example_constants)
               example_base_headers 0 None w in
  ∃ record', heap (snd run) !! 0%nat = Some record'
             ∧ is_oauth (CaseInsensitiveDict.of_items (map_to_list record')) = true.
Proof.
  intros w run.
  assert (Hbefore : is_oauth (CaseInsensitiveDict.of_items (map_to_list (example_token 4600)))
                    = true)
    by (vm_compute; reflexivity).
  destruct (load_headers_keeps_is_oauth (B := example_builtins)
              (C := example_constants) example_base_headers 0 None w
              (example_token 4600) (map_to_list (example_token 4600))
              eq_refl ltac:(reflexivity) Hbefore)
    as (record' & Hheap & Hall).
  exists record'. split; [exact Hheap|]. by apply Hall.
Defined.

(** An authorization value that is a number. *)
Lemma is_custom_oauth_outcomes_run :
  is_custom_oauth (CaseInsensitiveDict.of_items [("Authorization", JInt 3)])
  = inl (AttributeError "'int' object has no attribute 'startswith'").
Proof.
  exact (proj2 (is_custom_oauth_outcomes [("Authorization", JInt 3)])
           "Authorization" (JInt 3) [] [] eq_refl eq_refl
           ltac:(intros k' v' Hin; by apply elem_of_nil in Hin)).
Defined.
